(** * FunctionArrayMapped: the higher-order array function engine

    A shallow embedding of [src/Functions/array/FunctionArrayMapped.h]
    ([getLambdaArgumentTypes], [getReturnTypeImpl], [executeImpl]) together
    with the column, data type and closure-column collaborators it calls,
    and the properties of the engine stated over that embedding. *)

From Stdlib Require Import List String Arith Bool ZArith Lia.
From Stdlib Require Import DecimalString.
Import ListNotations.
Local Open Scope string_scope.
Local Open Scope nat_scope.

Set Implicit Arguments.
Set Warnings "-register-all".

(** ** Outcomes of a C++ computation *)

(** [ErrorCodes] of the header, plus the codes thrown by the column
    collaborators the model reaches. *)
Inductive ErrorCode : Type :=
| ILLEGAL_COLUMN
| ILLEGAL_TYPE_OF_ARGUMENT
| SIZES_OF_ARRAYS_DOESNT_MATCH
| NUMBER_OF_ARGUMENTS_DOESNT_MATCH
| PARAMETER_OUT_OF_BOUND
| SIZES_OF_COLUMNS_DOESNT_MATCH
| NOT_IMPLEMENTED
| BAD_GET.

(** A computation returns, throws [Exception(msg, code)], or leaves defined
    behaviour (a null pointer is dereferenced, a vector is indexed out of
    range); the string says where. *)
Inductive Outcome (A : Type) : Type :=
| Ok (a : A)
| Throw (msg : string) (code : ErrorCode)
| Undefined (what : string).

Arguments Ok {A} a.
Arguments Throw {A} msg code.
Arguments Undefined {A} what.

Definition obind {A B} (o : Outcome A) (k : A -> Outcome B) : Outcome B :=
  match o with
  | Ok a => k a
  | Throw m c => Throw m c
  | Undefined w => Undefined w
  end.

(** Modelled from the spec: [toString] of [IO/WriteHelpers.h], the decimal
    digits of a [size_t]. *)
Definition toString (n : nat) : string :=
  NilEmpty.string_of_uint (Nat.to_uint n).

(** ** Data types *)

(** Modelled from the spec: the data type classes ([DataTypeArray],
    [DataTypeFunction], [DataTypeLowCardinality], the numbers) are not among
    the sources; two number types stand for all of them.  The return type of
    a [DataTypeFunction] may be null. *)
Inductive DataType : Type :=
| DataTypeUInt8
| DataTypeInt64
| DataTypeArray (nested : DataType)
| DataTypeLowCardinality (dictionary_type : DataType)
| DataTypeFunction (argument_types : list DataType) (return_type : option DataType).

(** Modelled from the spec: [IDataType::getName]. *)
Fixpoint IDataType_getName (t : DataType) : string :=
  match t with
  | DataTypeUInt8 => "UInt8"
  | DataTypeInt64 => "Int64"
  | DataTypeArray n => "Array(" ++ IDataType_getName n ++ ")"
  | DataTypeLowCardinality d => "LowCardinality(" ++ IDataType_getName d ++ ")"
  | DataTypeFunction args r =>
      "Function(" ++ String.concat ", " (map IDataType_getName args) ++ " -> "
        ++ match r with Some r' => IDataType_getName r' | None => "" end ++ ")"
  end.

(** Modelled from the spec: [checkAndGetDataType<DataTypeArray>], the nested
    type, or null. *)
Definition asDataTypeArray (t : DataType) : option DataType :=
  match t with DataTypeArray n => Some n | _ => None end.

(** Modelled from the spec: [checkAndGetDataType<DataTypeFunction>]. *)
Definition asDataTypeFunction (t : DataType) : option (list DataType * option DataType) :=
  match t with DataTypeFunction a r => Some (a, r) | _ => None end.

(** Modelled from the spec: [WhichDataType::isUInt8]. *)
Definition isUInt8 (t : DataType) : bool :=
  match t with DataTypeUInt8 => true | _ => false end.

(** Modelled from the spec: [removeLowCardinality] on a [DataTypePtr], which
    may be null. *)
Definition removeLowCardinality (t : option DataType) : option DataType :=
  match t with Some (DataTypeLowCardinality d) => Some d | _ => t end.

(** Modelled from the spec: [recursiveRemoveLowCardinality] on a type. *)
Fixpoint recursiveRemoveLowCardinalityType (t : DataType) : DataType :=
  match t with
  | DataTypeArray n => DataTypeArray (recursiveRemoveLowCardinalityType n)
  | DataTypeLowCardinality d => d
  | _ => t
  end.

(** ** Values and columns *)

(** Modelled from the spec: [Field], one value of a column, a number or an
    array of values. *)
Inductive Field : Type :=
| FInt (z : Z)
| FArray (elems : list Field).

(** Modelled from the spec: the offsets column of an array column, behind a
    shared pointer ([getOffsetsPtr]).  [address] is the identity of
    the object: [Some a] for an object the caller holds (two pointers are the
    same object when the addresses agree), [None] for an object the engine
    has just allocated and nobody else points to. *)
Record ColumnOffsets : Type := mkOffsets {
  address : option nat;
  getData : list nat
}.

(** Modelled from the spec: the compiled lambda of a closure column
    ([ColumnFunction::function]), its body on the values of one call and the
    type of the column [reduce] builds. *)
Record Lambda : Type := mkLambda {
  body : list Field -> Field;
  getResultType : DataType
}.

(** Modelled from the spec: the column classes the header names, a plain
    column of numbers, a dictionary-encoded one, an array column (flat data
    and offsets), a constant column (one row and a size), a closure column
    (its size, its lambda, the columns bound so far). *)
Inductive Column : Type :=
| ColumnVector (data : list Z)
| ColumnLowCardinality (dictionary : list Z) (indexes : list nat)
| ColumnArray (data : Column) (offsets : ColumnOffsets)
| ColumnConst (data : Column) (s : nat)
| ColumnFunction (size_ : nat) (function : Lambda) (captured_columns : list Column).

(** A [ColumnPtr] may be null. *)
Definition ColumnPtr : Type := option Column.

(** Modelled from the spec: [ColumnWithTypeAndName]. *)
Record ColumnWithTypeAndName : Type := mkArg {
  column : ColumnPtr;
  type : DataType;
  name : string
}.

Definition ColumnsWithTypeAndName : Type := list ColumnWithTypeAndName.

(** ** Column operations

    The column classes ([IColumn], [ColumnVector], [ColumnLowCardinality],
    [ColumnArray], [ColumnConst]) are not part of the header; the spec gives
    their interface (size, offsets, flat data, slicing, materialisation), and
    the definitions below follow it row by row. *)

Fixpoint omapM {A B} (f : A -> Outcome B) (l : list A) : Outcome (list B) :=
  match l with
  | [] => Ok []
  | x :: l' => obind (f x) (fun y => obind (omapM f l') (fun ys => Ok (y :: ys)))
  end.

Fixpoint ofoldM {A B} (f : A -> B -> Outcome A) (a : A) (l : list B) : Outcome A :=
  match l with
  | [] => Ok a
  | x :: l' => obind (f a x) (fun a' => ofoldM f a' l')
  end.

(** Modelled from the spec: [IColumn::size], the number of rows. *)
Definition size (c : Column) : nat :=
  match c with
  | ColumnVector d => List.length d
  | ColumnLowCardinality _ idx => List.length idx
  | ColumnArray _ o => List.length (getData o)
  | ColumnConst _ s => s
  | ColumnFunction n _ _ => n
  end.

(** Modelled from the spec: [offsets[i - 1]], where [offsets[-1]] is 0. *)
Definition offsetBefore (offs : list nat) (i : nat) : nat :=
  match i with
  | 0 => 0
  | S j => nth j offs 0
  end.

(** Modelled from the spec: [offsets.back()], 0 for no row. *)
Definition offsetsBack (offs : list nat) : nat := last offs 0.

(** Modelled from the spec: [IColumn::operator[]], the value of row [n].
    A position outside the dictionary reads the default value 0. *)
Fixpoint getField (c : Column) (n : nat) : Outcome Field :=
  match c with
  | ColumnVector d =>
      match nth_error d n with
      | Some z => Ok (FInt z)
      | None => Undefined "ColumnVector: row out of range"
      end
  | ColumnLowCardinality dict idx =>
      match nth_error idx n with
      | Some k => Ok (FInt (nth k dict 0%Z))
      | None => Undefined "ColumnLowCardinality: row out of range"
      end
  | ColumnArray d o =>
      match nth_error (getData o) n with
      | Some e =>
          let b := offsetBefore (getData o) n in
          obind (omapM (getField d) (seq b (e - b))) (fun fs => Ok (FArray fs))
      | None => Undefined "ColumnArray: row out of range"
      end
  | ColumnConst d _ => getField d 0
  | ColumnFunction _ _ _ => Throw "Cannot get value from Function" NOT_IMPLEMENTED
  end.

(** Modelled from the spec: the position of [z] in the dictionary of a
    dictionary-encoded column, [z] appended when it is new. *)
Fixpoint uniqueInsert (dict : list Z) (z : Z) : list Z * nat :=
  match dict with
  | [] => ([z], 0)
  | x :: dict' =>
      if Z.eqb x z then (dict, 0)
      else let '(d, k) := uniqueInsert dict' z in (x :: d, S k)
  end.

(** Modelled from the spec: [IColumn::insert(const Field &)], append one
    row. *)
Fixpoint insert (f : Field) (c : Column) {struct f} : Outcome Column :=
  match c, f with
  | ColumnVector d, FInt z => Ok (ColumnVector (d ++ [z]))
  | ColumnLowCardinality dict idx, FInt z =>
      let '(dict', k) := uniqueInsert dict z in
      Ok (ColumnLowCardinality dict' (idx ++ [k]))
  | ColumnArray d o, FArray fs =>
      obind
        ((fix insertAll (l : list Field) (d0 : Column) {struct l} : Outcome Column :=
            match l with
            | [] => Ok d0
            | x :: l' => obind (insert x d0) (insertAll l')
            end) fs d)
        (fun d' =>
           Ok (ColumnArray d'
                 (mkOffsets (address o)
                    (getData o ++ [offsetsBack (getData o) + List.length fs]))))
  | ColumnConst d s, _ => Ok (ColumnConst d (S s))
  | ColumnFunction _ _ _, _ => Throw "Cannot insert into Function" NOT_IMPLEMENTED
  | _, _ => Throw "Bad get: wrong Field type" BAD_GET
  end.

(** Modelled from the spec: [IColumn::cloneEmpty]. *)
Fixpoint cloneEmpty (c : Column) : Column :=
  match c with
  | ColumnVector _ => ColumnVector []
  | ColumnLowCardinality _ _ => ColumnLowCardinality [] []
  | ColumnArray d _ => ColumnArray (cloneEmpty d) (mkOffsets None [])
  | ColumnConst d _ => ColumnConst d 0
  | ColumnFunction _ f cap => ColumnFunction 0 f (map cloneEmpty cap)
  end.

(** Modelled from the spec: append the rows [fs] to [c], one [insert] per
    row. *)
Definition insertRows (c : Column) (fs : list Field) : Outcome Column :=
  ofoldM (fun c0 f => insert f c0) c fs.

(** Modelled from the spec: a new column of the kind of [c] holding the rows
    of [c] at [idxs] ([cloneEmpty], then the rows inserted one by one). *)
Definition selectRows (c : Column) (idxs : list nat) : Outcome Column :=
  obind (omapM (getField c) idxs) (insertRows (cloneEmpty c)).

(** Modelled from the spec: the row numbers after replication, row [i]
    repeated
    [offsets[i] - offsets[i - 1]] times. *)
Definition replicateIndexes (offs : list nat) : list nat :=
  flat_map (fun i => repeat i (nth i offs 0 - offsetBefore offs i))
           (seq 0 (List.length offs)).

(** Modelled from the spec: the exception of [insertRangeFrom] for a range
    outside the column. *)
Definition outOfBound : Outcome Column :=
  Throw "Parameters start and length are out of bound in insertRangeFrom method."
        PARAMETER_OUT_OF_BOUND.

(** Modelled from the spec: [IColumn::cut(start, length)] (the spec's
    [slice]), a new column with the rows
    [start .. start + length - 1]. *)
Fixpoint cut (c : Column) (start len : nat) : Outcome Column :=
  match c with
  | ColumnConst d _ => Ok (ColumnConst d len)
  | ColumnFunction _ f cap =>
      obind (omapM (fun x => cut x start len) cap)
            (fun cap' => Ok (ColumnFunction len f cap'))
  | ColumnArray _ _ =>
      if len =? 0 then Ok (cloneEmpty c)
      else if size c <? start + len then outOfBound
      else selectRows c (seq start len)
  | _ =>
      if size c <? start + len then outOfBound
      else selectRows c (seq start len)
  end.

(** Modelled from the spec: [IColumn::replicate(offsets)], row [i] repeated
    [offsets[i] - offsets[i - 1]] times. *)
Fixpoint replicate (c : Column) (offs : list nat) : Outcome Column :=
  if negb (size c =? List.length offs) then
    Throw "Size of offsets doesn't match size of column." SIZES_OF_COLUMNS_DOESNT_MATCH
  else
    match c with
    | ColumnConst d s => Ok (ColumnConst d (if s =? 0 then 0 else offsetsBack offs))
    | ColumnFunction n f cap =>
        obind (omapM (fun x => replicate x offs) cap)
              (fun cap' =>
                 Ok (ColumnFunction (if n =? 0 then 0 else offsetsBack offs) f cap'))
    | _ => selectRows c (replicateIndexes offs)
    end.

(** Modelled from the spec: [ColumnConst::convertToFullColumn], that is
    [data->replicate(Offsets(1, s))]. *)
Definition convertToFullColumn (d : Column) (s : nat) : Outcome Column :=
  replicate d [s].

(** Modelled from the spec: [IColumn::convertToFullColumnIfConst]. *)
Fixpoint convertToFullColumnIfConst (c : Column) : Outcome Column :=
  match c with
  | ColumnConst d s => convertToFullColumn d s
  | ColumnArray d o =>
      obind (convertToFullColumnIfConst d) (fun d' => Ok (ColumnArray d' o))
  | _ => Ok c
  end.

(** Modelled from the spec: the values of a dictionary-encoded column. *)
Definition decode (dict : list Z) (idx : list nat) : list Z :=
  map (fun k => nth k dict 0%Z) idx.

(** Modelled from the spec: [IColumn::lowCardinality]. *)
Definition lowCardinality (c : Column) : bool :=
  match c with ColumnLowCardinality _ _ => true | _ => false end.

(** Modelled from the spec: [IColumn::convertToFullColumnIfLowCardinality]. *)
Definition convertToFullColumnIfLowCardinality (c : Column) : Column :=
  match c with
  | ColumnLowCardinality dict idx => ColumnVector (decode dict idx)
  | _ => c
  end.

(** Modelled from the spec: [recursiveRemoveLowCardinality] on a column;
    an array column keeps its offsets object. *)
Fixpoint recursiveRemoveLowCardinality (c : Column) : Column :=
  match c with
  | ColumnArray d o => ColumnArray (recursiveRemoveLowCardinality d) o
  | ColumnConst d s => ColumnConst (recursiveRemoveLowCardinality d) s
  | ColumnLowCardinality dict idx => ColumnVector (decode dict idx)
  | _ => c
  end.

(** Modelled from the spec: [IColumn::getName]. *)
Fixpoint IColumn_getName (c : Column) : string :=
  match c with
  | ColumnVector _ => "Int64"
  | ColumnLowCardinality _ _ => "ColumnLowCardinality"
  | ColumnArray d _ => "Array(" ++ IColumn_getName d ++ ")"
  | ColumnConst d _ => "Const(" ++ IColumn_getName d ++ ")"
  | ColumnFunction _ _ _ => "Function"
  end.

(** Modelled from the spec: [checkAndGetColumn<ColumnArray>], the flat data
    and the offsets of a
    plain array column, null for any other column. *)
Definition checkAndGetColumnArray (c : Column) : option (Column * ColumnOffsets) :=
  match c with ColumnArray d o => Some (d, o) | _ => None end.

(** Modelled from the spec: [checkAndGetColumnConst<ColumnArray>], a constant
    column over an array. *)
Definition checkAndGetColumnConstArray (c : Column) : option (Column * nat) :=
  match c with
  | ColumnConst (ColumnArray d o) s => Some (ColumnArray d o, s)
  | _ => None
  end.

(** ** The closure column

    [ColumnFunction] is not part of the header.  The spec gives [replicate] (one closure per row into one copy per array
    element, driven by an offsets sequence; it is [replicate] above),
    [appendArguments] (bind further per-element argument columns) and
    [reduce] (evaluate all bound calls, one value per copy, in order). *)

(** Modelled from the spec: the columns behind a list of arguments, none of
    them null. *)
Definition columnsOf (args : ColumnsWithTypeAndName) : Outcome (list Column) :=
  omapM (fun a => match column a with
                  | Some c => Ok c
                  | None => Undefined "null column captured"
                  end) args.

(** Modelled from the spec: [ColumnFunction::appendArguments], bind further
    argument columns after those bound already. *)
Definition appendArguments (f : Column) (cols : ColumnsWithTypeAndName) : Outcome Column :=
  match f with
  | ColumnFunction n fn cap =>
      obind (columnsOf cols)
            (fun cs => Ok (ColumnFunction n fn (cap ++ cs)))
  | _ => Undefined "appendArguments on a column that is no ColumnFunction"
  end.

(** Modelled from the spec: [IDataType::createColumn]. *)
Fixpoint createColumn (t : DataType) : Outcome Column :=
  match t with
  | DataTypeUInt8 | DataTypeInt64 => Ok (ColumnVector [])
  | DataTypeArray n =>
      obind (createColumn n) (fun d => Ok (ColumnArray d (mkOffsets None [])))
  | DataTypeLowCardinality _ => Ok (ColumnLowCardinality [] [])
  | DataTypeFunction _ _ => Throw "Method createColumn is not supported for Function" NOT_IMPLEMENTED
  end.

(** Modelled from the spec: the arguments of copy [i] of a closure column,
    row [i] of every bound column. *)
Definition callArguments (cap : list Column) (i : nat) : Outcome (list Field) :=
  omapM (fun c => getField c i) cap.

(** Modelled from the spec: [ColumnFunction::reduce().column], one value
    per copy, in order: copy [i] is the lambda's body on row
    [i] of the bound columns; the values fill a column of the result type. *)
Definition reduce (f : Column) : Outcome Column :=
  match f with
  | ColumnFunction n fn cap =>
      obind (omapM (fun i => obind (callArguments cap i) (fun args => Ok (body fn args)))
                   (seq 0 n))
            (fun vals => obind (createColumn (getResultType fn))
                               (fun e => insertRows e vals))
  | _ => Undefined "reduce on a column that is no ColumnFunction"
  end.

(** ** The strategy

    [Impl], the template parameter: the policy of one operation
    (see [arrayMap.cpp] for an example).  [execute] receives the reference
    array column and the mapped column.  [getReturnType] is taken as
    returning a type: a strategy that refuses the types with an exception
    of its own is not covered. *)
Record Impl : Type := mkImpl {
  needBoolean : bool;
  needExpression : bool;
  needOneArray : bool;
  isFolding : bool;
  getReturnType : option DataType -> DataType -> DataType;
  execute : Column -> Column -> Outcome Column
}.

(** ** The standard error stream *)

(** One item written with [<<]: a literal, a number, the [dumpStructure] of
    a column, the [dump] of a value. *)
Inductive Tok : Type :=
| TStr (s : string)
| TNum (n : nat)
| TStructure (c : Column)
| TField (f : Field).

(** One line, ended by [std::endl]. *)
Definition Line : Type := list Tok.

(** A computation of the engine: the lines it has written to [std::cerr],
    and its outcome. *)
Definition M (A : Type) : Type := (list Line * Outcome A)%type.

Definition mret {A} (a : A) : M A := ([], Ok a).

Definition mbind {A B} (m : M A) (k : A -> M B) : M B :=
  match m with
  | (t, Ok a) => let '(t', r) := k a in ((t ++ t')%list, r)
  | (t, Throw msg c) => (t, Throw msg c)
  | (t, Undefined w) => (t, Undefined w)
  end.

Definition cerr (l : Line) : M unit := ([l], Ok tt).

Definition lift {A} (o : Outcome A) : M A := ([], o).

Definition throw {A} (msg : string) (code : ErrorCode) : M A := ([], Throw msg code).

Definition stderr {A} (m : M A) : list Line := fst m.
Definition outcome {A} (m : M A) : Outcome A := snd m.

Declare Scope engine_scope.
Delimit Scope engine_scope with engine.
Notation "x <- m ;; k" := (mbind m (fun x => k))
  (at level 61, m at next level, right associativity) : engine_scope.
Notation "m ;; k" := (mbind m (fun _ => k))
  (at level 61, right associativity) : engine_scope.

Fixpoint mfoldM {A B} (f : A -> B -> M A) (a : A) (l : list B) : M A :=
  match l with
  | [] => mret a
  | x :: l' => mbind (f a x) (fun a' => mfoldM f a' l')
  end.

(** Same object behind two offsets pointers. *)
Definition samePointer (o1 o2 : ColumnOffsets) : bool :=
  match address o1, address o2 with
  | Some a, Some b => a =? b
  | _, _ => false
  end.

Definition sameData (o1 o2 : ColumnOffsets) : bool :=
  if list_eq_dec Nat.eq_dec (getData o1) (getData o2) then true else false.

(** ** The engine: [FunctionArrayMapped<Impl, Name>] *)

Section FunctionArrayMapped.

Variable impl : Impl.
(** [Name::name] *)
Variable name_ : string.

Local Open Scope engine_scope.

Definition getName : string := name_.

(** [getLambdaArgumentTypes]: the argument types after the call
    ([arguments] is passed by reference and its first entry replaced). *)
Definition getLambdaArgumentTypes (arguments : list DataType) : Outcome (list DataType) :=
  match arguments with
  | [] =>
      Throw ("Function " ++ getName ++ " needs at least one argument; passed "
             ++ toString (List.length arguments) ++ ".")
            NUMBER_OF_ARGUMENTS_DOESNT_MATCH
  | [_] =>
      Throw ("Function " ++ getName ++ " needs at least one array argument.")
            NUMBER_OF_ARGUMENTS_DOESNT_MATCH
  | a0 :: rest =>
      let arguments_to_skip := if isFolding impl then 1 else 0 in
      let nested_size := List.length arguments - 1 in
      obind
        (omapM (fun '(i, t) =>
                  match asDataTypeArray t with
                  | None =>
                      Throw ("Argument " ++ toString (i + 2) ++ " of function " ++ getName
                             ++ " must be array. Found " ++ IDataType_getName t ++ " instead.")
                            ILLEGAL_TYPE_OF_ARGUMENT
                  | Some nested => Ok (recursiveRemoveLowCardinalityType nested)
                  end)
               (combine (seq 0 (nested_size - arguments_to_skip))
                        (firstn (nested_size - arguments_to_skip) rest)))
        (fun array_types =>
           let nested_types :=
             if isFolding impl
             then (array_types ++ [last arguments a0])%list
             else array_types in
           match asDataTypeFunction a0 with
           | Some (argument_types, _) =>
               if List.length argument_types =? nested_size
               then Ok (DataTypeFunction nested_types None :: rest)
               else Throw ("First argument for this overload of " ++ getName
                           ++ " must be a function with " ++ toString nested_size
                           ++ " arguments. Found " ++ IDataType_getName a0 ++ " instead.")
                          ILLEGAL_TYPE_OF_ARGUMENT
           | None =>
               Throw ("First argument for this overload of " ++ getName
                      ++ " must be a function with " ++ toString nested_size
                      ++ " arguments. Found " ++ IDataType_getName a0 ++ " instead.")
                     ILLEGAL_TYPE_OF_ARGUMENT
           end)
  end.

(** [getReturnTypeImpl] *)
Definition getReturnTypeImpl (arguments : ColumnsWithTypeAndName) : Outcome DataType :=
  let min_args := if needExpression impl then 2 else 1 in
  if List.length arguments <? min_args then
    Throw ("Function " ++ getName ++ " needs at least " ++ toString min_args
           ++ " argument; passed " ++ toString (List.length arguments) ++ ".")
          NUMBER_OF_ARGUMENTS_DOESNT_MATCH
  else
    match arguments with
    | [] => Undefined "arguments[0] out of range"
    | [a0] =>
        match asDataTypeArray (type a0) with
        | None =>
            Throw ("The only argument for function " ++ getName ++ " must be array. Found "
                   ++ IDataType_getName (type a0) ++ " instead.")
                  ILLEGAL_TYPE_OF_ARGUMENT
        | Some nested_type =>
            if needBoolean impl && negb (isUInt8 nested_type) then
              Throw ("The only argument for function " ++ getName
                     ++ " must be array of UInt8. Found "
                     ++ IDataType_getName (type a0) ++ " instead.")
                    ILLEGAL_TYPE_OF_ARGUMENT
            else Ok (getReturnType impl (Some nested_type) nested_type)
        end
    | a0 :: a1 :: _ =>
        if (2 <? List.length arguments) && needOneArray impl then
          Throw ("Function " ++ getName ++ " needs one array argument.")
                NUMBER_OF_ARGUMENTS_DOESNT_MATCH
        else
          match asDataTypeFunction (type a0) with
          | None =>
              Throw ("First argument for function " ++ getName ++ " must be a function.")
                    ILLEGAL_TYPE_OF_ARGUMENT
          | Some (_, function_return) =>
              let return_type := removeLowCardinality function_return in
              let folded (r : option DataType) :=
                if isFolding impl then
                  Ok (getReturnType impl r (type (last arguments a0)))
                else
                  match asDataTypeArray (type a1) with
                  | Some nested => Ok (getReturnType impl r nested)
                  | None => Undefined "first_array_type is null"
                  end in
              if needBoolean impl then
                match return_type with
                | None => Undefined "return_type is null"
                | Some r =>
                    if negb (isUInt8 r) then
                      Throw ("Expression for function " ++ getName
                             ++ " must return UInt8, found " ++ IDataType_getName r)
                            ILLEGAL_TYPE_OF_ARGUMENT
                    else folded return_type
                end
              else folded return_type
          end
    end.

(** *** [executeImpl] *)

(** Lines 199-212: the array column behind one array argument, a constant
    array materialised and freed of dictionary encoding. *)
Definition normalizeArray (column_array_ptr : ColumnPtr) : Outcome Column :=
  match column_array_ptr with
  | None => Undefined "column_array_ptr is null"
  | Some c =>
      match checkAndGetColumnArray c with
      | Some _ => Ok c
      | None =>
          match checkAndGetColumnConstArray c with
          | None =>
              Throw ("X2 Expected array column, found " ++ IColumn_getName c) ILLEGAL_COLUMN
          | Some (arr, s) =>
              obind (convertToFullColumn arr s)
                    (fun full => Ok (recursiveRemoveLowCardinality full))
          end
      end
  end.

(** The state of the loop over the array arguments (lines 185-193). *)
Record Arrays : Type := mkArrays {
  offsets_column : option ColumnOffsets;
  column_first_array : option (Column * ColumnOffsets);
  arrays : ColumnsWithTypeAndName
}.

(** The view [*column_first_array] handed to the strategy. *)
Definition arrayColumn (a : Column * ColumnOffsets) : Column :=
  ColumnArray (fst a) (snd a).

(** One turn of the loop of lines 195-238, for argument [i]. *)
Definition collectArray (st : Arrays) (ia : nat * ColumnWithTypeAndName) : Outcome Arrays :=
  let '(i, array_with_type_and_name) := ia in
  obind (normalizeArray (column array_with_type_and_name)) (fun column_array_ptr =>
  match asDataTypeArray (type array_with_type_and_name) with
  | None =>
      Throw ("X3 Expected array type, found "
             ++ IDataType_getName (type array_with_type_and_name))
            ILLEGAL_TYPE_OF_ARGUMENT
  | Some nested_type =>
      match checkAndGetColumnArray column_array_ptr with
      | None => Undefined "column_array is null"
      | Some (data, offs) =>
          obind
            (match offsets_column st with
             | None => Ok offs
             | Some canonical =>
                 if negb (samePointer offs canonical) && negb (sameData offs canonical)
                 then Throw ("Arrays passed to " ++ getName ++ " must have equal size")
                            SIZES_OF_ARRAYS_DOESNT_MATCH
                 else Ok canonical
             end)
            (fun canonical =>
               Ok (mkArrays (Some canonical)
                     (if i =? 1 then Some (data, offs) else column_first_array st)
                     (arrays st ++
                      [mkArg (Some data)
                             (recursiveRemoveLowCardinalityType nested_type)
                             (name array_with_type_and_name)])%list))
      end
  end).

(** Lines 190-240: all array arguments, then the accumulator of a fold. *)
Definition collectArrays (arguments : ColumnsWithTypeAndName) : Outcome Arrays :=
  let arguments_to_skip := if isFolding impl then 1 else 0 in
  let upper := List.length arguments - arguments_to_skip in
  obind
    (ofoldM collectArray (mkArrays None None [])
            (combine (seq 1 (upper - 1)) (firstn (upper - 1) (skipn 1 arguments))))
    (fun st =>
       if isFolding impl then
         match arguments with
         | [] => Undefined "arguments is empty"
         | a0 :: _ =>
             Ok (mkArrays (offsets_column st) (column_first_array st)
                          (arrays st ++ [last arguments a0])%list)
         end
       else Ok st).

(** Lines 286-306: the arguments of one call of the lambda, a one-row slice
    of every array's flat data, then the accumulator. *)
Definition sliceArrays (arrs : ColumnsWithTypeAndName) (arr_cursor : nat)
    (accumulator : ColumnWithTypeAndName) : M ColumnsWithTypeAndName :=
  iter_arrays <-
    mfoldM (fun (iter_arrays : ColumnsWithTypeAndName) '(icolumn, arr) =>
              cerr [TStr "    @ "; TNum icolumn; TStr ") 1 :: "; TNum arr_cursor] ;;
              slice <- lift (match column arr with
                             | Some c => cut c arr_cursor 1
                             | None => Undefined "arr.column is null"
                             end) ;;
              cerr [TStr "    @ "; TNum icolumn; TStr ") 2 :: "; TStructure slice] ;;
              mret (iter_arrays ++ [mkArg (Some slice) (type arr) (name arr)])%list)
           []
           (combine (seq 0 (List.length arrs - 1)) (firstn (List.length arrs - 1) arrs)) ;;
  mret (iter_arrays ++ [accumulator])%list.

(** The state of the inner loop of a fold: the cursor into the flat data,
    the accumulator passed to the next call, and [res] (null until the first
    call of the row has returned). *)
Record FoldState : Type := mkFoldState {
  arr_cursor : nat;
  accumulator : ColumnWithTypeAndName;
  res : ColumnPtr
}.

(** Lines 309-313: the closure column of one turn, broadcast by the offsets
    of the first array and bound to the sliced arguments. *)
Definition bindIteration (column_function : Column)
    (first_array : Column * ColumnOffsets)
    (iter_arrays : ColumnsWithTypeAndName) : M Column :=
  replicated_column_function <-
    lift (replicate column_function (getData (snd first_array))) ;;
  cerr [TStr "    pre append"] ;;
  appended <- lift (appendArguments replicated_column_function iter_arrays) ;;
  cerr [TStr "    post append"] ;;
  mret appended.

(** Lines 275-324: one turn of the inner loop. *)
Definition foldIteration (column_function : Column)
    (first_array : Column * ColumnOffsets) (arrs : ColumnsWithTypeAndName)
    (arr_next iter : nat) (st : FoldState) : M FoldState :=
  cerr [TStr "  ----- iteration "; TNum iter; TStr "  ------"] ;;
  cerr [TStr "    arrays.size() = "; TNum (List.length arrs)] ;;
  cerr [TStr "    arr_cursor = "; TNum (arr_cursor st)] ;;
  cerr [TStr "    arr_next   = "; TNum arr_next] ;;
  iter_arrays <- sliceArrays arrs (arr_cursor st) (accumulator st) ;;
  cerr [TStr "    formed"] ;;
  appended <- bindIteration column_function first_array iter_arrays ;;
  reduced <- lift (reduce appended) ;;
  let lambda_result :=
    if lowCardinality reduced then convertToFullColumnIfLowCardinality reduced
    else reduced in
  cerr [TStr "    pre execute"] ;;
  r <- lift (execute impl (arrayColumn first_array) lambda_result) ;;
  cerr [TStr "  post execute : res "; TStructure r] ;;
  r0 <- lift (getField r 0) ;;
  cerr [TStr "  post execute : res[0] "; TField r0] ;;
  mret (mkFoldState (S (arr_cursor st))
          (mkArg (Some r) (type (accumulator st)) (name (accumulator st)))
          (Some r)).

(** Line 273: [for (iter = 0; arr_cursor < arr_next; ++iter, ++arr_cursor)];
    [n] is the number of turns left, [arr_next - arr_cursor]. *)
Fixpoint foldIterations (column_function : Column)
    (first_array : Column * ColumnOffsets) (arrs : ColumnsWithTypeAndName)
    (arr_next : nat) (n iter : nat) (st : FoldState) : M FoldState :=
  match n with
  | 0 => mret st
  | S n' =>
      st' <- foldIteration column_function first_array arrs arr_next iter st ;;
      foldIterations column_function first_array arrs arr_next n' (S iter) st'
  end.

(** Lines 255-335: one row of a fold.  The state between rows is the cursor
    and the result column. *)
Definition foldRow (column_function : Column)
    (first_array : Column * ColumnOffsets) (arrs : ColumnsWithTypeAndName)
    (accumulator_column : ColumnWithTypeAndName)
    (st : nat * Column) (irow : nat) : M (nat * Column) :=
  let '(cursor, result) := st in
  cerr [TStr "  --- row "; TNum irow; TStr "  ---"] ;;
  acc <- lift (match column accumulator_column with
               | Some c => cut c irow 1
               | None => Undefined "accumulator_column.column is null"
               end) ;;
  cerr [TStr "  * accumulator.type "; TStr (IDataType_getName (type accumulator_column))] ;;
  cerr [TStr "  * accumulator.column ";
        match column accumulator_column with
        | Some c => TStructure c
        | None => TStr ""
        end] ;;
  cerr [TStr "  * acc "; TStructure acc] ;;
  acc0 <- lift (getField acc 0) ;;
  cerr [TStr "  * acc[0] "; TField acc0] ;;
  let arr_next := nth irow (getData (snd first_array)) 0 in
  st' <- foldIterations column_function first_array arrs arr_next
           (arr_next - cursor) 0
           (mkFoldState cursor
              (mkArg (Some acc) (type accumulator_column) (name accumulator_column))
              None) ;;
  cerr [TStr "  pre result "; TStructure result] ;;
  r <- lift (match res st' with
             | Some r => Ok r
             | None => Undefined "res is null"
             end) ;;
  r0 <- lift (getField r 0) ;;
  result' <- lift (insert r0 result) ;;
  cerr [TStr "  post result "; TStructure result'] ;;
  r0' <- lift (getField r 0) ;;
  cerr [TStr "  post res[0] "; TField r0'] ;;
  result0 <- lift (getField result' 0) ;;
  cerr [TStr "  post result[0] "; TField result0] ;;
  mret (arr_cursor st', result').

(** Lines 246-340: the fold over all rows. *)
Definition foldRows (column_function : Column)
    (first_array : Column * ColumnOffsets) (arrs : ColumnsWithTypeAndName)
    (accumulator_column : ColumnWithTypeAndName) : M Column :=
  seed <- lift (match column accumulator_column with
                | Some c => convertToFullColumnIfConst c
                | None => Undefined "arguments.back().column is null"
                end) ;;
  st <- mfoldM (foldRow column_function first_array arrs accumulator_column)
               (0, cloneEmpty seed)
               (seq 0 (size (arrayColumn first_array))) ;;
  mret (snd st).

(** Lines 343-355: the flat broadcast. *)
Definition broadcast (column_function : Column)
    (first_array : Column * ColumnOffsets) (arrs : ColumnsWithTypeAndName) : M Column :=
  replicated_column_function <-
    lift (replicate column_function (getData (snd first_array))) ;;
  appended <- lift (appendArguments replicated_column_function arrs) ;;
  reduced <- lift (reduce appended) ;;
  let lambda_result :=
    if lowCardinality reduced then convertToFullColumnIfLowCardinality reduced
    else reduced in
  r <- lift (execute impl (arrayColumn first_array) lambda_result) ;;
  cerr [TStr " ^^^ FOLDING"] ;;
  mret r.

(** Lines 155-170: the overload [f(array)]. *)
Definition executeSingle (a0 : ColumnWithTypeAndName) : M Column :=
  match column a0 with
  | None => lift (Undefined "column_array_ptr is null")
  | Some c =>
      match checkAndGetColumnArray c with
      | Some (data, _) => lift (execute impl c data)
      | None =>
          match checkAndGetColumnConstArray c with
          | None =>
              throw ("X1 Expected array column, found " ++ IColumn_getName c) ILLEGAL_COLUMN
          | Some (arr, s) =>
              full <- lift (convertToFullColumn arr s) ;;
              match checkAndGetColumnArray full with
              | Some (data, _) => lift (execute impl full data)
              | None => lift (Undefined "assert_cast to ColumnArray")
              end
          end
      end
  end.

(** [typeid_cast<const ColumnFunction *>] *)
Definition isColumnFunction (c : Column) : bool :=
  match c with ColumnFunction _ _ _ => true | _ => false end.

(** Lines 173-357: the call with a lambda. *)
Definition executeMapped (arguments : ColumnsWithTypeAndName)
    (column_with_type_and_name : ColumnWithTypeAndName) : M Column :=
  match column column_with_type_and_name with
  | None =>
      throw ("First argument for function " ++ getName ++ " must be a function.")
            ILLEGAL_TYPE_OF_ARGUMENT
  | Some column_function =>
      if negb (isColumnFunction column_function) then
        throw ("First argument for function " ++ getName ++ " must be a function.")
              ILLEGAL_TYPE_OF_ARGUMENT
      else
        st <- lift (collectArrays arguments) ;;
        cerr [TStr "  arrays.size() = "; TNum (List.length (arrays st))] ;;
        first_array <- lift (match column_first_array st with
                             | Some a => Ok a
                             | None => Undefined "column_first_array is null"
                             end) ;;
        cerr [TStr "  column_first_array->size() = ";
              TNum (size (arrayColumn first_array))] ;;
        cerr [TStr "  column_first_array->getOffsets().size() = ";
              TNum (List.length (getData (snd first_array)))] ;;
        cerr [TStr "  column_first_array->getData().size() = ";
              TNum (size (fst first_array))] ;;
        if isFolding impl && (0 <? size (fst first_array)) then
          foldRows column_function first_array (arrays st)
                   (last arguments column_with_type_and_name)
        else
          broadcast column_function first_array (arrays st)
  end.

Definition executeImpl (arguments : ColumnsWithTypeAndName) : M Column :=
  cerr [TStr " *** FOLDING"] ;;
  cerr [TStr "  isFolding(): "; TStr (if isFolding impl then "yes" else "no-")] ;;
  cerr [TStr "  arguments.size() = "; TNum (List.length arguments)] ;;
  match arguments with
  | [] => lift (Undefined "arguments[0] out of range")
  | [a0] => executeSingle a0
  | a0 :: _ => executeMapped arguments a0
  end.

End FunctionArrayMapped.

(** ** Strategies and blocks of the scenarios

    The concrete strategies ([arrayMap.cpp] and the fold) are not among the
    sources.  The scenarios of the spec fix what they return. *)
Module Scenarios.

(** Modelled from the spec: the transform of scenario 1, which wraps the
    mapped column in the offsets of the reference array. *)
Definition ArrayMapImpl : Impl :=
  mkImpl false true false false
    (fun expression_return array_element =>
       DataTypeArray (match expression_return with
                      | Some r => r
                      | None => array_element
                      end))
    (fun array mapped =>
       match array with
       | ColumnArray _ o => Ok (ColumnArray mapped o)
       | _ => Undefined "Impl::execute: no array"
       end).

(** Modelled from the spec: the fold of scenarios 3 and 4, whose [execute]
    returns the mapped column, the new accumulator. *)
Definition ArrayFoldImpl : Impl :=
  mkImpl false true false true
    (fun _ accum_type => accum_type)
    (fun _ mapped => Ok mapped).

(** Modelled from the spec: a strategy that hands back the reference array
    (the filter of scenario 2 when its mask keeps every element). *)
Definition ArrayKeepImpl : Impl :=
  mkImpl false true true false
    (fun _ array_element => DataTypeArray array_element)
    (fun array _ => Ok array).

(** Modelled from the spec: a strategy with the overload [f(array)] that
    needs no expression; the shaping of its result is out of scope, the
    mapped column is returned. *)
Definition ArrayCountImpl : Impl :=
  mkImpl true false false false
    (fun _ _ => DataTypeInt64)
    (fun _ mapped => Ok mapped).

(** [x -> x * 2] *)
Definition double : Lambda :=
  mkLambda (fun args => match args with
                        | [FInt x] => FInt (x * 2)
                        | _ => FInt 0
                        end) DataTypeInt64.

(** [(x, acc) -> acc + x] *)
Definition plus : Lambda :=
  mkLambda (fun args => match args with
                        | [FInt x; FInt acc] => FInt (acc + x)
                        | _ => FInt 0
                        end) DataTypeInt64.

(** [x -> x] *)
Definition identity (t : DataType) : Lambda :=
  mkLambda (fun args => match args with
                        | [x] => x
                        | _ => FInt 0
                        end) t.

Definition lambdaArgument (fn : Lambda) (rows : nat) (argument_types : list DataType)
  : ColumnWithTypeAndName :=
  mkArg (Some (ColumnFunction rows fn []))
        (DataTypeFunction argument_types (Some (getResultType fn))) "lambda".

Definition arrayArgument (address : nat) (data : list Z) (offs : list nat)
  : ColumnWithTypeAndName :=
  mkArg (Some (ColumnArray (ColumnVector data) (mkOffsets (Some address) offs)))
        (DataTypeArray DataTypeInt64) "array".

Definition seedArgument (data : list Z) : ColumnWithTypeAndName :=
  mkArg (Some (ColumnVector data)) DataTypeInt64 "seed".

(** Scenario 1: [x -> x * 2] over [[1,2,3]]. *)
Definition transform : ColumnsWithTypeAndName :=
  [lambdaArgument double 1 [DataTypeInt64]; arrayArgument 1 [1; 2; 3]%Z [3]].

(** Scenario 4: [(x, acc) -> acc + x] over the rows [[], [1,2]] with the
    seeds [[10, 0]]. *)
Definition foldWithEmptyRow : ColumnsWithTypeAndName :=
  [lambdaArgument plus 2 [DataTypeInt64; DataTypeInt64];
   arrayArgument 1 [1; 2]%Z [0; 2];
   seedArgument [10; 0]%Z].

(** The rows [[5], []] with the seeds [[10, 20]]. *)
Definition foldWithEmptyLastRow : ColumnsWithTypeAndName :=
  [lambdaArgument plus 2 [DataTypeInt64; DataTypeInt64];
   arrayArgument 1 [5]%Z [1; 1];
   seedArgument [10; 20]%Z].

(** One row [[1,2]] with the seed 0. *)
Definition foldTwoElements : ColumnsWithTypeAndName :=
  [lambdaArgument plus 1 [DataTypeInt64; DataTypeInt64];
   arrayArgument 1 [1; 2]%Z [2];
   seedArgument [0]%Z].

(** One row [[]] with the seed [seed]. *)
Definition foldNoElements (seed : Z) : ColumnsWithTypeAndName :=
  [lambdaArgument plus 1 [DataTypeInt64; DataTypeInt64];
   arrayArgument 1 [] [0];
   seedArgument [seed]].

(** Scenario 5: the rows [[1,2]] and [[1]] zipped. *)
Definition unequalArrays : ColumnsWithTypeAndName :=
  [lambdaArgument plus 1 [DataTypeInt64; DataTypeInt64];
   arrayArgument 1 [1; 2]%Z [2];
   arrayArgument 2 [1]%Z [1]].

End Scenarios.

(** The three lines every call writes first (lines 151-153). *)
Definition header (impl : Impl) (arguments : ColumnsWithTypeAndName) : list Line :=
  [[TStr " *** FOLDING"];
   [TStr "  isFolding(): "; TStr (if isFolding impl then "yes" else "no-")];
   [TStr "  arguments.size() = "; TNum (List.length arguments)]].

(** ** The fold in the words of the spec

    Section 4.3 of the spec: for a row with the elements [e_0 ... e_{k-1}]
    and the seed [a], [acc = a], then [acc = closure(e_j, acc)] for each
    element in order (the values of every zipped array first, the accumulator
    last); the result of the row is the final [acc].  One result per row. *)
Definition foldRowContract (closure : list Field -> Field)
    (elements : list (list Field)) (seed : Field) : Field :=
  fold_left (fun acc e => closure (e ++ [acc])%list) elements seed.

Definition foldContract (closure : list Field -> Field)
    (rows : list (list (list Field))) (seeds : list Field) : list Field :=
  map (fun '(elements, seed) => foldRowContract closure elements seed)
      (combine rows seeds).

(** The offsets of an array column do not decrease: row [i] ends where it
    starts, or later. *)
Definition nondecreasing (offs : list nat) : Prop :=
  forall i, i < List.length offs -> offsetBefore offs i <= nth i offs 0.

(** An array argument as the loop of lines 195-238 takes it: its column
    normalises to the array column of flat data [d] and offsets [o], and its
    declared type is an array type. *)
Definition normalizesTo (a : ColumnWithTypeAndName) (d : Column) (o : ColumnOffsets) : Prop :=
  normalizeArray (column a) = Ok (ColumnArray d o)
  /\ asDataTypeArray (type a) <> None.

(** Two pointers to the same offsets object see the same offsets. *)
Definition aliasingSound (o1 o2 : ColumnOffsets) : Prop :=
  samePointer o1 o2 = true -> getData o1 = getData o2.

(** ** Dictionary-encoded arguments *)

(** A plain column: no dictionary encoding and no constant wrapper in it. *)
Fixpoint isPlain (c : Column) : bool :=
  match c with
  | ColumnVector _ => true
  | ColumnArray d _ => isPlain d
  | _ => false
  end.

Module DictionaryScenario.

(** One row [[7, 7]] whose elements are dictionary-encoded. *)
Definition encoded : ColumnWithTypeAndName :=
  mkArg (Some (ColumnArray (ColumnLowCardinality [7%Z] [0; 0]) (mkOffsets (Some 1) [2])))
        (DataTypeArray (DataTypeLowCardinality DataTypeInt64)) "array".

(** The same row, materialised. *)
Definition plain : ColumnWithTypeAndName :=
  mkArg (Some (ColumnArray (ColumnVector [7; 7]%Z) (mkOffsets (Some 1) [2])))
        (DataTypeArray (DataTypeLowCardinality DataTypeInt64)) "array".

Definition lambda : ColumnWithTypeAndName :=
  Scenarios.lambdaArgument (Scenarios.identity DataTypeInt64) 1 [DataTypeInt64].


End DictionaryScenario.

Module OverloadScenario.




End OverloadScenario.

(** ** Well-formed columns and typed values *)

(** [offs] does not decrease and starts at [prev] or above. *)
Fixpoint sortedFrom (prev : nat) (offs : list nat) : bool :=
  match offs with
  | [] => true
  | x :: offs' => (prev <=? x) && sortedFrom x offs'
  end.

(** The invariants of the column classes: the offsets of an array column do
    not decrease and its flat data is as long as the last offset, a constant
    column wraps one row. *)
Fixpoint wellFormed (c : Column) : bool :=
  match c with
  | ColumnVector _ => true
  | ColumnLowCardinality _ _ => true
  | ColumnArray d o =>
      sortedFrom 0 (getData o) && (offsetsBack (getData o) =? size d) && wellFormed d
  | ColumnConst d _ => (size d =? 1) && wellFormed d
  | ColumnFunction _ _ _ => false
  end.

(** The value [f] is a value of the type [t]. *)
Fixpoint fits (t : DataType) (f : Field) {struct f} : bool :=
  match f, t with
  | FInt _, (DataTypeUInt8 | DataTypeInt64 | DataTypeLowCardinality _) => true
  | FArray fs, DataTypeArray n => forallb (fits n) fs
  | _, _ => false
  end.

(** The column [c] is a column of the type [t]. *)
Fixpoint hasShape (t : DataType) (c : Column) {struct c} : bool :=
  match c, t with
  | ColumnVector _, (DataTypeUInt8 | DataTypeInt64) => true
  | ColumnLowCardinality _ _, DataTypeLowCardinality _ => true
  | ColumnArray d _, DataTypeArray n => hasShape n d
  | _, _ => false
  end.

(** The number of elements of every row: the offset of the row less the
    offset of the row before, [prev] before the first. *)
Fixpoint rowSizesFrom (prev : nat) (offs : list nat) : list nat :=
  match offs with
  | [] => []
  | x :: offs' => (x - prev) :: rowSizesFrom x offs'
  end.

Definition elementsPerRow (offs : list nat) : list nat := rowSizesFrom 0 offs.

(** The arguments of the call for element [p]: row [p] of every bound
    column ([[]] where a row cannot be read). *)
Definition argumentsAt (cols : list Column) (p : nat) : list Field :=
  match callArguments cols p with
  | Ok args => args
  | _ => []
  end.

(** The type of the accumulator as the last argument type of a fold; no such
    type otherwise. *)
Definition accumulatorType (impl : Impl) (acc : DataType) : list DataType :=
  if isFolding impl then [acc] else [].

(** Array arguments that go through the loop of lines 195-238: the first
    normalises to an array column with an array type, the others too, with
    the offsets of the first. *)
Definition zipped (arrs : ColumnsWithTypeAndName) : Prop :=
  match arrs with
  | [] => True
  | first :: others =>
      exists d1 o1,
        normalizesTo first d1 o1
        /\ Forall (fun a => exists d o, normalizesTo a d o /\ getData o = getData o1)
                  others
  end.

(** The computation writes no closing banner (the line of line 353). *)
Definition silentEnd {A} (m : M A) : Prop :=
  ~ In [TStr " ^^^ FOLDING"] (stderr m).

(** * Properties *)

(** ** The writer of [std::cerr] *)

Lemma mbind_cerr {A} (l : Line) (k : unit -> M A) :
  mbind (cerr l) k = (l :: stderr (k tt), outcome (k tt)).
Proof. unfold mbind, cerr, stderr, outcome. destruct (k tt); reflexivity. Qed.

Lemma mbind_lift_Ok {A B} (a : A) (k : A -> M B) :
  mbind (lift (Ok a)) k = k a.
Proof. unfold mbind, lift. destruct (k a); reflexivity. Qed.

Lemma mbind_lift_Throw {A B} msg code (k : A -> M B) :
  mbind (lift (Throw msg code)) k = ([], Throw msg code).
Proof. reflexivity. Qed.

Lemma mbind_lift_Undefined {A B} w (k : A -> M B) :
  mbind (lift (Undefined w)) k = ([], Undefined w).
Proof. reflexivity. Qed.

Lemma mbind_mret {A B} (a : A) (k : A -> M B) :
  mbind (mret a) k = k a.
Proof. unfold mbind, mret. destruct (k a); reflexivity. Qed.

Lemma outcome_mbind_Ok {A B} (m : M A) (k : A -> M B) a :
  outcome m = Ok a -> outcome (mbind m k) = outcome (k a).
Proof.
  destruct m as [t o]; unfold outcome; simpl; intros ->.
  destruct (k a); reflexivity.
Qed.

Lemma outcome_mbind_Undefined {A B} (m : M A) (k : A -> M B) w :
  outcome m = Undefined w -> outcome (mbind m k) = Undefined w.
Proof. destruct m as [t o]; unfold outcome; simpl; intros ->; reflexivity. Qed.

Lemma outcome_mbind_Throw {A B} (m : M A) (k : A -> M B) msg code :
  outcome m = Throw msg code -> outcome (mbind m k) = Throw msg code.
Proof. destruct m as [t o]; unfold outcome; simpl; intros ->; reflexivity. Qed.

Lemma outcome_lift {A} (o : Outcome A) : outcome (lift o) = o.
Proof. reflexivity. Qed.

(** ** Diagnostic output *)

Lemma stderr_executeSingle (impl : Impl) (a0 : ColumnWithTypeAndName) :
  stderr (executeSingle impl a0) = [].
Proof.
  unfold executeSingle.
  destruct (column a0) as [c |]; [| reflexivity].
  destruct (checkAndGetColumnArray c) as [[data o] |]; [reflexivity |].
  destruct (checkAndGetColumnConstArray c) as [[arr s] |]; [| reflexivity].
  destruct (convertToFullColumn arr s) as [full | msg code | w];
    [rewrite mbind_lift_Ok | reflexivity | reflexivity].
  destruct (checkAndGetColumnArray full) as [[data o] |]; reflexivity.
Qed.

(** C8 (as the code has it).  Every call of [executeImpl], whatever the
    strategy, the name and the arguments, first writes three lines to the
    standard error stream: the banner, whether the strategy folds, and the
    number of arguments.  A call with at most one argument writes nothing
    more, and neither does a call with a lambda that is refused at its first
    argument or while its array arguments are taken (lines 175-226).  A call
    with a lambda whose arguments are all taken next writes the number of
    bound columns (line 241). *)
Theorem executeImpl_writes_header (impl : Impl) (name_ : string)
    (arguments : ColumnsWithTypeAndName) :
  (exists rest : list Line,
     stderr (executeImpl impl name_ arguments) = (header impl arguments ++ rest)%list)
  /\ (List.length arguments <= 1 ->
      stderr (executeImpl impl name_ arguments) = header impl arguments)
  /\ (forall a0 column_function st,
         2 <= List.length arguments ->
         hd_error arguments = Some a0 ->
         column a0 = Some column_function ->
         isColumnFunction column_function = true ->
         collectArrays impl name_ arguments = Ok st ->
         exists rest : list Line,
           stderr (executeImpl impl name_ arguments)
           = (header impl arguments
              ++ [TStr "  arrays.size() = "; TNum (List.length (arrays st))] :: rest)%list)
  /\ (forall a0,
         2 <= List.length arguments ->
         hd_error arguments = Some a0 ->
         (forall column_function,
             column a0 = Some column_function ->
             isColumnFunction column_function = true ->
             forall st, collectArrays impl name_ arguments <> Ok st) ->
         stderr (executeImpl impl name_ arguments) = header impl arguments).
Proof.
  split; [| split; [| split]].
  - unfold executeImpl, header.
    rewrite !mbind_cerr; cbn [stderr fst].
    eexists; reflexivity.
  - intros Hlen. unfold executeImpl, header.
    rewrite !mbind_cerr; cbn [stderr fst].
    destruct arguments as [| a0 [| a1 rest]]; cbn in Hlen; [reflexivity | | lia].
    now rewrite stderr_executeSingle.
  - intros a0 column_function st Hlen Hhd Hc Hf Hst.
    destruct arguments as [| a [| a1 rest]]; cbn in Hlen; try lia.
    cbn in Hhd. injection Hhd as ->.
    unfold executeImpl, header.
    rewrite !mbind_cerr; cbn [stderr fst].
    unfold executeMapped. rewrite Hc, Hf. cbn [negb].
    rewrite Hst, mbind_lift_Ok, mbind_cerr. cbn [stderr fst app].
    eexists; reflexivity.
  - intros a0 Hlen Hhd Hrefused.
    destruct arguments as [| a [| a1 rest]]; cbn in Hlen; try lia.
    cbn in Hhd. injection Hhd as ->.
    unfold executeImpl, header.
    rewrite !mbind_cerr; cbn [stderr fst].
    unfold executeMapped.
    destruct (column a0) as [column_function |]; [| reflexivity].
    destruct (isColumnFunction column_function) eqn:Hf; [| reflexivity].
    cbn [negb].
    specialize (Hrefused column_function eq_refl Hf).
    destruct (collectArrays impl name_ (a0 :: a1 :: rest)) as [st | msg code | w];
      [now elim (Hrefused st) | reflexivity | reflexivity].
Qed.

Lemma executeImpl_writes_header_witness :
  stderr (executeImpl Scenarios.ArrayCountImpl "arrayCount"
            [Scenarios.arrayArgument 1 [1; 0; 1]%Z [3]])
  = header Scenarios.ArrayCountImpl [Scenarios.arrayArgument 1 [1; 0; 1]%Z [3]]
  /\ (exists rest : list Line,
         stderr (executeImpl Scenarios.ArrayMapImpl "arrayMap" Scenarios.transform)
         = (header Scenarios.ArrayMapImpl Scenarios.transform
            ++ [TStr "  arrays.size() = "; TNum 1] :: rest)%list)
  /\ stderr (executeImpl Scenarios.ArrayMapImpl "arrayMap" Scenarios.unequalArrays)
     = header Scenarios.ArrayMapImpl Scenarios.unequalArrays.
Proof.
  split; [| split].
  - apply (proj1 (proj2 (executeImpl_writes_header Scenarios.ArrayCountImpl "arrayCount"
                           [Scenarios.arrayArgument 1 [1; 0; 1]%Z [3]]))).
    simpl. lia.
  - refine (proj1 (proj2 (proj2 (executeImpl_writes_header Scenarios.ArrayMapImpl "arrayMap"
                                    Scenarios.transform)))
                  (Scenarios.lambdaArgument Scenarios.double 1 [DataTypeInt64])
                  (ColumnFunction 1 Scenarios.double [])
                  (mkArrays (Some (mkOffsets (Some 1) [3]))
                            (Some (ColumnVector [1; 2; 3]%Z, mkOffsets (Some 1) [3]))
                            [mkArg (Some (ColumnVector [1; 2; 3]%Z)) DataTypeInt64 "array"])
                  _ eq_refl eq_refl eq_refl eq_refl).
    simpl. lia.
  - refine (proj2 (proj2 (proj2 (executeImpl_writes_header Scenarios.ArrayMapImpl "arrayMap"
                                    Scenarios.unequalArrays)))
                  (Scenarios.lambdaArgument Scenarios.plus 1 [DataTypeInt64; DataTypeInt64])
                  _ eq_refl _).
    + simpl. lia.
    + intros column_function _ _ st H. vm_compute in H. discriminate H.
Defined.

(** C8, the claim as stated fails: the transform of scenario 1 leaves lines
    on the standard error stream, the three of the header and the closing
    banner. *)
Lemma executeImpl_silent_counterexample :
  stderr (executeImpl Scenarios.ArrayMapImpl "arrayMap" Scenarios.transform)
  = [[TStr " *** FOLDING"];
     [TStr "  isFolding(): "; TStr "no-"];
     [TStr "  arguments.size() = "; TNum 2];
     [TStr "  arrays.size() = "; TNum 1];
     [TStr "  column_first_array->size() = "; TNum 1];
     [TStr "  column_first_array->getOffsets().size() = "; TNum 1];
     [TStr "  column_first_array->getData().size() = "; TNum 3];
     [TStr " ^^^ FOLDING"]]
  /\ stderr (executeImpl Scenarios.ArrayMapImpl "arrayMap" Scenarios.transform) <> [].
Proof. split; [reflexivity | discriminate]. Qed.

(** ** Argument count *)

(** C9.  A call with fewer arguments than the minimum of the operation (two
    when the strategy needs an expression, one otherwise) is refused by
    [getReturnTypeImpl] with [NUMBER_OF_ARGUMENTS_DOESNT_MATCH]; the message
    starts with the name of the operation, and the outcome is the exception
    alone, no type.  [getLambdaArgumentTypes] refuses fewer than two argument
    types in the same way. *)
Theorem too_few_arguments_rejected (impl : Impl) (name_ : string)
    (arguments : ColumnsWithTypeAndName) :
  List.length arguments < (if needExpression impl then 2 else 1) ->
  getReturnTypeImpl impl name_ arguments
  = Throw ("Function " ++ name_ ++ " needs at least "
           ++ toString (if needExpression impl then 2 else 1)
           ++ " argument; passed " ++ toString (List.length arguments) ++ ".")
          NUMBER_OF_ARGUMENTS_DOESNT_MATCH
  /\ forall types : list DataType,
       List.length types < 2 ->
       exists rest,
         getLambdaArgumentTypes impl name_ types
         = Throw ("Function " ++ name_ ++ rest) NUMBER_OF_ARGUMENTS_DOESNT_MATCH.
Proof.
  intros Hlt. split.
  - unfold getReturnTypeImpl, getName.
    apply Nat.ltb_lt in Hlt. rewrite Hlt. reflexivity.
  - intros types Hty. unfold getLambdaArgumentTypes, getName.
    destruct types as [|t [|t' types]]; cbn in Hty; try lia;
      eexists; reflexivity.
Qed.

Lemma too_few_arguments_rejected_witness :
  List.length [Scenarios.arrayArgument 1 [1; 2; 3]%Z [3]] < 2 /\
  getReturnTypeImpl Scenarios.ArrayMapImpl "arrayMap"
    [Scenarios.arrayArgument 1 [1; 2; 3]%Z [3]]
  = Throw "Function arrayMap needs at least 2 argument; passed 1."
          NUMBER_OF_ARGUMENTS_DOESNT_MATCH.
Proof.
  split; [simpl; lia |].
  apply (too_few_arguments_rejected Scenarios.ArrayMapImpl "arrayMap"
           [Scenarios.arrayArgument 1 [1; 2; 3]%Z [3]]).
  simpl. lia.
Defined.

(** ** Shapes and sizes of the columns built row by row *)





Lemma omapM_app {A B} (f : A -> Outcome B) (l1 l2 : list A) :
  omapM f (l1 ++ l2)
  = obind (omapM f l1) (fun r1 => obind (omapM f l2) (fun r2 => Ok (r1 ++ r2)%list)).
Proof.
  induction l1 as [| x l1 IH]; simpl.
  - destruct (omapM f l2); reflexivity.
  - destruct (f x); simpl; try reflexivity.
    rewrite IH. destruct (omapM f l1); simpl; try reflexivity.
    destruct (omapM f l2); reflexivity.
Qed.

Lemma omapM_ext_in {A B} (f g : A -> Outcome B) (l : list A) :
  (forall x, In x l -> f x = g x) -> omapM f l = omapM g l.
Proof.
  induction l as [| x l IH]; simpl; intros H; [reflexivity |].
  rewrite (H x (or_introl eq_refl)), IH; [reflexivity |].
  intros y Hy; apply H; now right.
Qed.

Lemma omapM_Ok_map {A B} (f : A -> B) (l : list A) :
  omapM (fun x => Ok (f x)) l = Ok (map f l).
Proof. induction l as [| x l IH]; simpl; [| rewrite IH]; reflexivity. Qed.

Lemma omapM_length {A B} (f : A -> Outcome B) (l : list A) : forall ys,
  omapM f l = Ok ys -> List.length ys = List.length l.
Proof.
  induction l as [| x l IH]; intros ys H; cbn [omapM] in H.
  - now inversion H.
  - destruct (f x) as [y | |]; cbn [obind] in H; try discriminate.
    destruct (omapM f l) as [ys' | |]; cbn [obind] in H; try discriminate.
    inversion H. cbn [List.length]. now rewrite (IH ys' eq_refl).
Qed.



Lemma outcome_lift_cerr_mret {A} (o : Outcome A) (l : Line) :
  outcome (mbind (lift o) (fun r => mbind (cerr l) (fun _ => mret r))) = o.
Proof. destruct o; reflexivity. Qed.

(** ** The overload with one argument *)








(** ** The fold, row by row *)

Lemma foldIterations_0 impl cf fa arrs arr_next iter st :
  foldIterations impl cf fa arrs arr_next 0 iter st = mret st.
Proof. reflexivity. Qed.

Lemma mbind_assoc {A B C} (m : M A) (f : A -> M B) (g : B -> M C) :
  mbind (mbind m f) g = mbind m (fun x => mbind (f x) g).
Proof.
  destruct m as [t [a | msg code | w]]; simpl; try reflexivity.
  destruct (f a) as [t' [b | msg code | w]]; simpl; try reflexivity.
  destruct (g b) as [t'' r]. now rewrite app_assoc.
Qed.

Lemma mbind_ext {A B} (m : M A) (f g : A -> M B) :
  (forall x, f x = g x) -> mbind m f = mbind m g.
Proof.
  intros H. destruct m as [t [a | msg code | w]]; simpl; try reflexivity.
  now rewrite H.
Qed.

Lemma mfoldM_app {A B} (f : A -> B -> M A) (l1 l2 : list B) : forall a,
  mfoldM f a (l1 ++ l2) = mbind (mfoldM f a l1) (fun a' => mfoldM f a' l2).
Proof.
  induction l1 as [| x l1 IH]; intros a; cbn [mfoldM app].
  - now rewrite mbind_mret.
  - rewrite mbind_assoc. apply mbind_ext; intros a'. apply IH.
Qed.

Lemma outcome_mbind_inv {A B} (m : M A) (k : A -> M B) b :
  outcome (mbind m k) = Ok b ->
  exists a, outcome m = Ok a /\ outcome (k a) = Ok b.
Proof.
  destruct m as [t [a | msg code | w]]; unfold outcome; simpl; try discriminate.
  intros H. exists a. split; [reflexivity |].
  destruct (k a); exact H.
Qed.

(** Peel the head of a chain of binds whose outcome is known to be [Ok]. *)
Ltac peel H :=
  repeat first
    [ rewrite mbind_cerr in H; cbn [outcome snd] in H
    | rewrite mbind_mret in H
    | match type of H with
      | outcome (mbind (lift ?o) _) = Ok _ =>
          let E := fresh "E" in
          destruct o eqn:E;
          [ rewrite mbind_lift_Ok in H
          | discriminate H
          | discriminate H ]
      end ].

Lemma foldIteration_cursor impl cf fa arrs arr_next iter st st' :
  outcome (foldIteration impl cf fa arrs arr_next iter st) = Ok st' ->
  arr_cursor st' = S (arr_cursor st).
Proof.
  unfold foldIteration. intros H. peel H.
  apply outcome_mbind_inv in H as (iter_arrays & _ & H). peel H.
  apply outcome_mbind_inv in H as (appended & _ & H). peel H.
  unfold mret, outcome in H; simpl in H. now inversion H.
Qed.

Lemma foldIterations_cursor impl cf fa arrs arr_next n : forall iter st st',
  outcome (foldIterations impl cf fa arrs arr_next n iter st) = Ok st' ->
  arr_cursor st' = arr_cursor st + n.
Proof.
  induction n as [| n IH]; intros iter st st'; simpl.
  - unfold mret, outcome; simpl. intros [= <-]. lia.
  - intros H. apply outcome_mbind_inv in H as (st1 & H1 & H).
    apply foldIteration_cursor in H1. apply IH in H. lia.
Qed.

(** After a row that returned, the cursor stands at the offset of the row,
    or where it stood when that is further. *)
Lemma foldRow_cursor impl cf fa arrs accumulator_column cursor result irow cursor' result' :
  outcome (foldRow impl cf fa arrs accumulator_column (cursor, result) irow)
  = Ok (cursor', result') ->
  cursor' = cursor + (nth irow (getData (snd fa)) 0 - cursor).
Proof.
  unfold foldRow. intros H. peel H.
  apply outcome_mbind_inv in H as (st' & Hit & H). peel H.
  apply foldIterations_cursor in Hit. cbn [arr_cursor] in Hit.
  unfold mret, outcome in H; simpl in H. inversion H. lia.
Qed.

(** After the rows before [r] have returned, the cursor stands at the start
    of row [r]. *)
Lemma foldRows_cursor impl cf fa arrs accumulator_column result0 :
  nondecreasing (getData (snd fa)) ->
  forall r cursor result,
    r <= List.length (getData (snd fa)) ->
    outcome (mfoldM (foldRow impl cf fa arrs accumulator_column) (0, result0) (seq 0 r))
    = Ok (cursor, result) ->
    cursor = offsetBefore (getData (snd fa)) r.
Proof.
  intros Hmono. induction r as [| r IH]; intros cursor result Hr H.
  - unfold mret, outcome in H; simpl in H. now inversion H.
  - rewrite seq_S, mfoldM_app in H. cbn [Nat.add] in H.
    apply outcome_mbind_inv in H as ([c1 res1] & H1 & H).
    apply IH in H1; [| lia].
    cbn [mfoldM] in H.
    apply outcome_mbind_inv in H as ([c2 res2] & H2 & H).
    unfold mret, outcome in H; simpl in H. inversion H; subst c2 res2.
    apply foldRow_cursor in H2.
    specialize (Hmono r Hr). cbn [offsetBefore]. lia.
Qed.

(** C2 (the code at an empty row).  In a fold over a block that holds at
    least one element, take a row [r] without elements, at any position, the
    rows before it having returned.  The inner loop does not turn for row
    [r], [res] is still null after it, and the insertion of row 0 of [res]
    into [result] (line 330) dereferences the null pointer: the call leaves
    defined behaviour instead of returning the seed of the row. *)
Theorem fold_empty_row_dereferences_null (impl : Impl) (name_ : string)
    (lambda : ColumnWithTypeAndName) (rest : ColumnsWithTypeAndName)
    (column_function seed full acc d result : Column) (o : ColumnOffsets)
    (st : Arrays) (v : Field) (r cursor : nat) :
  isFolding impl = true ->
  rest <> [] ->
  column lambda = Some column_function ->
  isColumnFunction column_function = true ->
  collectArrays impl name_ (lambda :: rest) = Ok st ->
  column_first_array st = Some (d, o) ->
  0 < size d ->
  nondecreasing (getData o) ->
  r < List.length (getData o) ->
  nth r (getData o) 0 = offsetBefore (getData o) r ->
  column (last (lambda :: rest) lambda) = Some seed ->
  convertToFullColumnIfConst seed = Ok full ->
  outcome (mfoldM (foldRow impl column_function (d, o) (arrays st)
                           (last (lambda :: rest) lambda))
                  (0, cloneEmpty full) (seq 0 r))
  = Ok (cursor, result) ->
  cut seed r 1 = Ok acc ->
  getField acc 0 = Ok v ->
  outcome (executeImpl impl name_ (lambda :: rest)) = Undefined "res is null".
Proof.
  intros Hfold Hrest Hl Hcf Hst Hfa Hd Hmono Hr Hempty Hseed Hfull Hrows Hcut Hv.
  unfold executeImpl. rewrite !mbind_cerr. cbn [outcome snd].
  destruct rest as [| a1 rest']; [contradiction |].
  unfold executeMapped. rewrite Hl, Hcf. cbn [negb].
  rewrite Hst, mbind_lift_Ok, mbind_cerr. cbn [outcome snd].
  rewrite Hfa, mbind_lift_Ok, !mbind_cerr. cbn [outcome snd fst].
  rewrite Hfold. apply Nat.ltb_lt in Hd. rewrite Hd. cbn [andb].
  unfold foldRows. rewrite Hseed, Hfull, mbind_lift_Ok.
  cbn [arrayColumn size fst snd].
  apply outcome_mbind_Undefined.
  replace (List.length (getData o)) with (r + S (List.length (getData o) - S r)) by lia.
  rewrite seq_app, mfoldM_app. cbn [Nat.add seq mfoldM].
  rewrite (outcome_mbind_Ok _ _ Hrows).
  apply outcome_mbind_Undefined.
  assert (Hcur : cursor = offsetBefore (getData o) r).
  { eapply foldRows_cursor with (fa := (d, o)); [exact Hmono | | exact Hrows].
    cbn [snd]. lia. }
  unfold foldRow. rewrite mbind_cerr. cbn [outcome snd].
  rewrite Hseed, Hcut, mbind_lift_Ok, !mbind_cerr. cbn [outcome snd].
  rewrite Hv, mbind_lift_Ok, mbind_cerr. cbn [outcome snd].
  rewrite Hempty, Hcur, Nat.sub_diag, foldIterations_0, mbind_mret, mbind_cerr.
  reflexivity.
Qed.

Lemma fold_empty_row_dereferences_null_witness :
  outcome (executeImpl Scenarios.ArrayFoldImpl "arrayFold" Scenarios.foldWithEmptyLastRow)
  = Undefined "res is null".
Proof.
  refine (@fold_empty_row_dereferences_null
            Scenarios.ArrayFoldImpl "arrayFold"
            (Scenarios.lambdaArgument Scenarios.plus 2 [DataTypeInt64; DataTypeInt64])
            [Scenarios.arrayArgument 1 [5]%Z [1; 1]; Scenarios.seedArgument [10; 20]%Z]
            (ColumnFunction 2 Scenarios.plus [])
            (ColumnVector [10; 20]%Z) (ColumnVector [10; 20]%Z)
            (ColumnVector [20]%Z) (ColumnVector [5]%Z)
            (ColumnVector [15]%Z)
            (mkOffsets (Some 1) [1; 1])
            (mkArrays (Some (mkOffsets (Some 1) [1; 1]))
                      (Some (ColumnVector [5]%Z, mkOffsets (Some 1) [1; 1]))
                      [mkArg (Some (ColumnVector [5]%Z)) DataTypeInt64 "array";
                       Scenarios.seedArgument [10; 20]%Z])
            (FInt 20) 1 1
            eq_refl _ eq_refl eq_refl eq_refl eq_refl _ _ _ eq_refl eq_refl eq_refl
            eq_refl eq_refl eq_refl).
  - discriminate.
  - simpl. lia.
  - intros i Hi. simpl in Hi.
    destruct i as [| [| i]]; simpl; lia.
  - simpl. lia.
Defined.

(** C1 (the code at the failing input).  Scenario 4 of the spec: the lambda
    [(x, acc) -> acc + x] folded over the rows [[], [1,2]] with the seeds
    [[10, 0]].  The contract of the spec gives [[10, 3]]; [executeImpl]
    dereferences the null [res] at the first row and returns no column. *)
Theorem fold_scenario_with_empty_row :
  foldContract (body Scenarios.plus)
               [[]; [[FInt 1]; [FInt 2]]] [FInt 10; FInt 0]
  = [FInt 10; FInt 3]
  /\ outcome (executeImpl Scenarios.ArrayFoldImpl "arrayFold" Scenarios.foldWithEmptyRow)
     = Undefined "res is null".
Proof. split; reflexivity. Qed.

Lemma outcome_mbind_lift {A B} (o : Outcome A) (k : A -> M B) :
  outcome (mbind (lift o) k) = obind o (fun a => outcome (k a)).
Proof.
  destruct o as [a | msg code | w]; try reflexivity.
  now rewrite mbind_lift_Ok.
Qed.

(** C3 (the code, one turn of the inner loop).  For a closure column with
    one closure per row and no bound argument yet, the turn broadcasts the
    closure by the offsets of the whole first array: the closure column it
    evaluates has as many copies as the block has elements (the last
    offset), bound to the one-row slices; and the strategy's [execute]
    receives the whole first array, all its rows, with the evaluated
    column.  The cursor advances by one. *)
Theorem fold_iteration_uses_whole_block (impl : Impl) (n : nat) (fn : Lambda)
    (d : Column) (o : ColumnOffsets) (arrs : ColumnsWithTypeAndName)
    (arr_next iter : nat) (st : FoldState)
    (iter_arrays : ColumnsWithTypeAndName) (cols : list Column) :
  n = List.length (getData o) ->
  0 < n ->
  outcome (sliceArrays arrs (arr_cursor st) (accumulator st)) = Ok iter_arrays ->
  columnsOf iter_arrays = Ok cols ->
  outcome (bindIteration (ColumnFunction n fn []) (d, o) iter_arrays)
  = Ok (ColumnFunction (offsetsBack (getData o)) fn cols)
  /\ outcome (foldIteration impl (ColumnFunction n fn []) (d, o) arrs arr_next iter st)
     = obind (reduce (ColumnFunction (offsetsBack (getData o)) fn cols))
         (fun reduced =>
            obind (execute impl (ColumnArray d o)
                     (if lowCardinality reduced
                      then convertToFullColumnIfLowCardinality reduced
                      else reduced))
              (fun r =>
                 obind (getField r 0)
                   (fun _ =>
                      Ok (mkFoldState (S (arr_cursor st))
                            (mkArg (Some r) (type (accumulator st))
                                   (name (accumulator st)))
                            (Some r))))).
Proof.
  intros Hn Hpos Hslice Hcols.
  assert (Hbind : outcome (bindIteration (ColumnFunction n fn []) (d, o) iter_arrays)
                  = Ok (ColumnFunction (offsetsBack (getData o)) fn cols)).
  { unfold bindIteration. cbn [snd replicate size]. rewrite Hn, Nat.eqb_refl.
    cbn [negb omapM obind].
    rewrite mbind_lift_Ok, mbind_cerr. cbn [outcome snd].
    unfold appendArguments. rewrite Hcols. cbn [obind app].
    rewrite mbind_lift_Ok, mbind_cerr. cbn [outcome snd].
    destruct (List.length (getData o)) eqn:E; [lia | reflexivity]. }
  split; [exact Hbind |].
  unfold foldIteration. rewrite !mbind_cerr. cbn [outcome snd].
  rewrite (outcome_mbind_Ok _ _ Hslice), mbind_cerr. cbn [outcome snd].
  rewrite (outcome_mbind_Ok _ _ Hbind).
  rewrite outcome_mbind_lift.
  destruct (reduce _) as [reduced | |]; cbn [obind]; try reflexivity.
  rewrite mbind_cerr. cbn [outcome snd].
  rewrite outcome_mbind_lift. cbn [arrayColumn fst snd].
  destruct (execute impl _ _) as [r | |]; cbn [obind]; try reflexivity.
  rewrite mbind_cerr. cbn [outcome snd].
  rewrite outcome_mbind_lift.
  destruct (getField r 0) as [r0 | |]; cbn [obind]; reflexivity.
Qed.

Lemma fold_iteration_uses_whole_block_witness :
  outcome (bindIteration (ColumnFunction 1 Scenarios.plus [])
             (ColumnVector [1; 2]%Z, mkOffsets (Some 1) [2])
             [mkArg (Some (ColumnVector [1]%Z)) DataTypeInt64 "array";
              mkArg (Some (ColumnVector [0]%Z)) DataTypeInt64 "seed"])
  = Ok (ColumnFunction 2 Scenarios.plus [ColumnVector [1]%Z; ColumnVector [0]%Z]).
Proof.
  refine (proj1 (@fold_iteration_uses_whole_block
                   Scenarios.ArrayFoldImpl 1 Scenarios.plus
                   (ColumnVector [1; 2]%Z) (mkOffsets (Some 1) [2])
                   [mkArg (Some (ColumnVector [1; 2]%Z)) DataTypeInt64 "array";
                    Scenarios.seedArgument [0]%Z]
                   2 0
                   (mkFoldState 0 (mkArg (Some (ColumnVector [0]%Z)) DataTypeInt64 "seed") None)
                   [mkArg (Some (ColumnVector [1]%Z)) DataTypeInt64 "array";
                    mkArg (Some (ColumnVector [0]%Z)) DataTypeInt64 "seed"]
                   [ColumnVector [1]%Z; ColumnVector [0]%Z]
                   eq_refl _ eq_refl eq_refl)).
  simpl. lia.
Defined.

(** ** The fold of a block without elements *)

(** C5 (the code).  In a fold, when the flat data of the first array holds
    no element, [executeImpl] does not enter the loop over the rows: it
    takes the flat broadcast of lines 343-355.  The test is on the number of
    elements of the whole block.  The closure is broadcast to no copy and
    its lambda is not called; the evaluated column is the empty column of
    the lambda's result type, and the outcome of the call is [execute] of
    the strategy on the first array and that empty column.  The seed column
    takes no part in it. *)
Theorem fold_without_elements_takes_broadcast (impl : Impl) (name_ : string)
    (lambda : ColumnWithTypeAndName) (rest : ColumnsWithTypeAndName)
    (n : nat) (fn : Lambda) (cap cap' cols : list Column)
    (d e : Column) (o : ColumnOffsets) (st : Arrays) :
  isFolding impl = true ->
  rest <> [] ->
  column lambda = Some (ColumnFunction n fn cap) ->
  collectArrays impl name_ (lambda :: rest) = Ok st ->
  column_first_array st = Some (d, o) ->
  size d = 0 ->
  n = List.length (getData o) ->
  offsetsBack (getData o) = 0 ->
  omapM (fun x => replicate x (getData o)) cap = Ok cap' ->
  columnsOf (arrays st) = Ok cols ->
  createColumn (getResultType fn) = Ok e ->
  outcome (executeImpl impl name_ (lambda :: rest))
  = outcome (broadcast impl (ColumnFunction n fn cap) (d, o) (arrays st))
  /\ outcome (executeImpl impl name_ (lambda :: rest))
     = execute impl (ColumnArray d o) (convertToFullColumnIfLowCardinality e).
Proof.
  intros Hfold Hrest Hl Hst Hfa Hd Hn Hback Hcap Hcols He.
  assert (Hflat : outcome (executeImpl impl name_ (lambda :: rest))
                  = outcome (broadcast impl (ColumnFunction n fn cap) (d, o) (arrays st))).
  { unfold executeImpl. rewrite !mbind_cerr. cbn [outcome snd].
    destruct rest as [| a1 rest']; [contradiction |].
    unfold executeMapped. rewrite Hl. cbn [isColumnFunction negb].
    rewrite Hst, mbind_lift_Ok, mbind_cerr. cbn [outcome snd].
    rewrite Hfa, mbind_lift_Ok, !mbind_cerr. cbn [outcome snd fst].
    rewrite Hfold, Hd. reflexivity. }
  split; [exact Hflat |].
  rewrite Hflat. unfold broadcast. cbn [snd fst arrayColumn replicate size].
  rewrite Hn, Nat.eqb_refl. cbn [negb]. rewrite Hcap. cbn [obind].
  rewrite Hback.
  replace (if List.length (getData o) =? 0 then 0 else 0) with 0
    by (now destruct (List.length (getData o) =? 0)).
  rewrite mbind_lift_Ok. unfold appendArguments. rewrite Hcols. cbn [obind].
  rewrite mbind_lift_Ok. unfold reduce. cbn [seq omapM obind].
  rewrite He. cbn [obind]. unfold insertRows. cbn [ofoldM].
  rewrite mbind_lift_Ok.
  replace (if lowCardinality e then convertToFullColumnIfLowCardinality e else e)
    with (convertToFullColumnIfLowCardinality e) by (destruct e; reflexivity).
  apply outcome_lift_cerr_mret.
Qed.

Lemma fold_without_elements_takes_broadcast_witness :
  outcome (executeImpl Scenarios.ArrayFoldImpl "arrayFold" (Scenarios.foldNoElements 10))
  = execute Scenarios.ArrayFoldImpl
      (ColumnArray (ColumnVector []) (mkOffsets (Some 1) [0]))
      (convertToFullColumnIfLowCardinality (ColumnVector [])).
Proof.
  refine (proj2 (@fold_without_elements_takes_broadcast
            Scenarios.ArrayFoldImpl "arrayFold"
            (Scenarios.lambdaArgument Scenarios.plus 1 [DataTypeInt64; DataTypeInt64])
            [Scenarios.arrayArgument 1 [] [0]; Scenarios.seedArgument [10]%Z]
            1 Scenarios.plus [] []
            [ColumnVector []; ColumnVector [10]%Z]
            (ColumnVector []) (ColumnVector []) (mkOffsets (Some 1) [0])
            (mkArrays (Some (mkOffsets (Some 1) [0]))
                      (Some (ColumnVector [], mkOffsets (Some 1) [0]))
                      [mkArg (Some (ColumnVector [])) DataTypeInt64 "array";
                       Scenarios.seedArgument [10]%Z])
            eq_refl _ eq_refl eq_refl eq_refl eq_refl eq_refl eq_refl eq_refl
            eq_refl eq_refl)).
  discriminate.
Defined.

(** The fold of one row without elements does not depend on the seed,
    whatever the strategy; with the fold of the scenarios it is a column
    without rows, not the seed column. *)
Lemma fold_without_elements_loses_seed :
  (forall impl : Impl,
      isFolding impl = true ->
      outcome (executeImpl impl "arrayFold" (Scenarios.foldNoElements 10))
      = outcome (executeImpl impl "arrayFold" (Scenarios.foldNoElements 20)))
  /\ outcome (executeImpl Scenarios.ArrayFoldImpl "arrayFold" (Scenarios.foldNoElements 10))
     = Ok (ColumnVector [])
  /\ outcome (executeImpl Scenarios.ArrayFoldImpl "arrayFold" (Scenarios.foldNoElements 10))
     <> Ok (ColumnVector [10]%Z).
Proof.
  split; [| split; [reflexivity | discriminate]].
  intros [nb ne no fold rt exec] Hfold. cbn [isFolding] in Hfold. subst fold.
  reflexivity.
Qed.

(** ** Arrays of unequal sizes *)

Lemma ofoldM_app {A B} (f : A -> B -> Outcome A) (l1 l2 : list B) : forall a,
  ofoldM f a (l1 ++ l2) = obind (ofoldM f a l1) (fun a' => ofoldM f a' l2).
Proof.
  induction l1 as [| x l1 IH]; intros a; simpl; [reflexivity |].
  destruct (f a x); simpl; [apply IH | reflexivity | reflexivity].
Qed.

Lemma sameData_true o1 o2 : getData o1 = getData o2 -> sameData o1 o2 = true.
Proof. unfold sameData. now destruct (list_eq_dec _ _ _). Qed.

Lemma sameData_false o1 o2 : getData o1 <> getData o2 -> sameData o1 o2 = false.
Proof. unfold sameData. now destruct (list_eq_dec _ _ _). Qed.

(** An array whose offsets equal the canonical ones, by identity or by
    value, passes the check and leaves the canonical offsets in place. *)
Lemma collectArray_agrees name_ st i a d o canonical :
  offsets_column st = Some canonical ->
  normalizesTo a d o ->
  samePointer o canonical = true \/ getData o = getData canonical ->
  exists st',
    collectArray name_ st (i, a) = Ok st'
    /\ offsets_column st' = Some canonical.
Proof.
  intros Hst [Hn Ht] Hsame. unfold collectArray. rewrite Hn. cbn [obind].
  destruct (asDataTypeArray (type a)) as [nested |]; [| contradiction].
  cbn [checkAndGetColumnArray]. rewrite Hst.
  assert (Hc : negb (samePointer o canonical) && negb (sameData o canonical) = false).
  { destruct Hsame as [Hp | Hd].
    - now rewrite Hp.
    - rewrite (sameData_true _ _ Hd). apply andb_false_r. }
  rewrite Hc. cbn [obind]. eexists; split; reflexivity.
Qed.

Lemma collectArray_mismatch name_ st i a d o canonical :
  offsets_column st = Some canonical ->
  normalizesTo a d o ->
  getData o <> getData canonical ->
  aliasingSound o canonical ->
  collectArray name_ st (i, a)
  = Throw ("Arrays passed to " ++ name_ ++ " must have equal size")
          SIZES_OF_ARRAYS_DOESNT_MATCH.
Proof.
  intros Hst [Hn Ht] Hneq Hsound. unfold collectArray. rewrite Hn. cbn [obind].
  destruct (asDataTypeArray (type a)) as [nested |]; [| contradiction].
  cbn [checkAndGetColumnArray]. rewrite Hst.
  rewrite (sameData_false _ _ Hneq).
  destruct (samePointer o canonical) eqn:Hp.
  - exfalso. apply Hneq, Hsound, Hp.
  - reflexivity.
Qed.

Lemma collectArrays_mismatch name_ canonical bad db ob tail :
  normalizesTo bad db ob ->
  getData ob <> getData canonical ->
  aliasingSound ob canonical ->
  forall agreeing i n st,
    offsets_column st = Some canonical ->
    Forall (fun a => exists d o, normalizesTo a d o /\ getData o = getData canonical)
           agreeing ->
    List.length agreeing < n ->
    ofoldM (collectArray name_) st
           (combine (seq i n) (agreeing ++ bad :: tail))
    = Throw ("Arrays passed to " ++ name_ ++ " must have equal size")
            SIZES_OF_ARRAYS_DOESNT_MATCH.
Proof.
  intros Hbad Hneq Hsound.
  induction agreeing as [| a agreeing IH]; intros i n st Hst Hall Hn;
    destruct n as [| n]; cbn [List.length] in Hn; try lia;
    cbn [seq app combine ofoldM].
  - now rewrite (collectArray_mismatch name_ st i Hst Hbad Hneq Hsound).
  - inversion Hall as [| a' l' (d & o & Ha & Hd) Hall']; subst.
    destruct (collectArray_agrees name_ st i Hst Ha (or_intror Hd)) as (st' & -> & Hst').
    cbn [obind]. apply IH; [assumption | assumption | lia].
Qed.

Lemma obind_ext {A B} (o : Outcome A) (f g : A -> Outcome B) :
  (forall x, f x = g x) -> obind o f = obind o g.
Proof. intros H. destruct o; simpl; [apply H | reflexivity | reflexivity]. Qed.

Lemma collectArray_first name_ a d o :
  normalizesTo a d o ->
  exists st,
    collectArray name_ (mkArrays None None []) (1, a) = Ok st
    /\ offsets_column st = Some o
    /\ column_first_array st = Some (d, o)
    /\ columnsOf (arrays st) = Ok [d].
Proof.
  intros [Hn Ht]. unfold collectArray. rewrite Hn. cbn [obind].
  destruct (asDataTypeArray (type a)) as [nested |]; [| contradiction].
  cbn [checkAndGetColumnArray offsets_column obind Nat.eqb].
  eexists; repeat split.
Qed.

Lemma firstn_past_app {A} (l1 l2 : list A) (x : A) (k : nat) :
  List.length l1 < k ->
  firstn k (l1 ++ x :: l2) = (l1 ++ x :: firstn (k - List.length l1 - 1) l2)%list.
Proof.
  intros Hk. rewrite firstn_app, firstn_all2 by lia. f_equal.
  destruct (k - List.length l1) as [| m] eqn:E; [lia |].
  cbn [firstn]. f_equal. f_equal. lia.
Qed.

(** C4.  In a call with a lambda and two or more zipped arrays, the offsets
    of the first array are the canonical ones.  When the arrays after the
    first agree with them up to an array whose offsets differ (in any row,
    whatever the totals), [executeImpl] throws
    [SIZES_OF_ARRAYS_DOESNT_MATCH] with a message that names the operation.
    The pointers are compared first: an array that shares the offsets object
    passes without a comparison of the values.  In a fold the last argument,
    the accumulator, does not go through the check at all. *)
Theorem unequal_arrays_rejected (impl : Impl) (name_ : string)
    (lambda first bad : ColumnWithTypeAndName)
    (agreeing tail : ColumnsWithTypeAndName)
    (column_function d1 db : Column) (o1 ob : ColumnOffsets) :
  column lambda = Some column_function ->
  isColumnFunction column_function = true ->
  normalizesTo first d1 o1 ->
  Forall (fun a => exists d o, normalizesTo a d o /\ getData o = getData o1) agreeing ->
  normalizesTo bad db ob ->
  getData ob <> getData o1 ->
  aliasingSound ob o1 ->
  (isFolding impl = true -> tail <> []) ->
  outcome (executeImpl impl name_ (lambda :: first :: agreeing ++ bad :: tail))
  = Throw ("Arrays passed to " ++ name_ ++ " must have equal size")
          SIZES_OF_ARRAYS_DOESNT_MATCH
  /\ (forall st i a d o,
         offsets_column st = Some o1 ->
         normalizesTo a d o ->
         samePointer o o1 = true ->
         exists st', collectArray name_ st (i, a) = Ok st'
                     /\ offsets_column st' = Some o1)
  /\ (forall arrs accumulator,
         isFolding impl = true ->
         collectArrays impl name_ (lambda :: arrs ++ [accumulator])
         = obind (ofoldM (collectArray name_) (mkArrays None None [])
                         (combine (seq 1 (List.length arrs)) arrs))
                 (fun st => Ok (mkArrays (offsets_column st) (column_first_array st)
                                         (arrays st ++ [accumulator])%list))).
Proof.
  intros Hl Hcf Hfirst Hall Hbad Hneq Hsound Htail.
  split; [| split].
  - unfold executeImpl. rewrite !mbind_cerr. cbn [outcome snd].
    unfold executeMapped. rewrite Hl, Hcf. cbn [negb].
    rewrite outcome_mbind_lift.
    assert (Hthrow : collectArrays impl name_ (lambda :: first :: agreeing ++ bad :: tail)
                     = Throw ("Arrays passed to " ++ name_ ++ " must have equal size")
                             SIZES_OF_ARRAYS_DOESNT_MATCH).
    { unfold collectArrays. cbn [skipn List.length].
      rewrite length_app. cbn [List.length].
      set (skip := if isFolding impl then 1 else 0).
      assert (Hk : exists k, S (S (List.length agreeing + S (List.length tail))) - skip - 1 = S k
                             /\ List.length agreeing < k) .
      { subst skip. destruct (isFolding impl) eqn:Ef.
        - specialize (Htail eq_refl). destruct tail as [| t tail']; [contradiction |].
          cbn [List.length]. exists (List.length agreeing + S (List.length tail')).
          split; lia.
        - exists (List.length agreeing + S (List.length tail)). split; lia. }
      destruct Hk as (k & -> & Hk).
      cbn [firstn seq combine ofoldM].
      destruct (collectArray_first name_ Hfirst) as (st1 & -> & Hst1 & _).
      cbn [obind]. rewrite (firstn_past_app _ _ _ Hk).
      now rewrite (@collectArrays_mismatch name_ o1 bad db ob
                     (firstn (k - List.length agreeing - 1) tail)
                     Hbad Hneq Hsound agreeing 2 k st1 Hst1 Hall Hk). }
    now rewrite Hthrow.
  - intros st i a d o Hst Ha Hp.
    exact (collectArray_agrees name_ st i Hst Ha (or_introl Hp)).
  - intros arrs accumulator Hfold. unfold collectArrays. rewrite Hfold.
    cbn [List.length skipn]. rewrite length_app. cbn [List.length].
    replace (S (List.length arrs + 1) - 1 - 1) with (List.length arrs) by lia.
    rewrite firstn_app, firstn_all, Nat.sub_diag. cbn [firstn]. rewrite app_nil_r.
    apply obind_ext; intros st.
    change (lambda :: arrs ++ [accumulator])%list with ((lambda :: arrs) ++ [accumulator])%list.
    now rewrite last_last.
Qed.

Lemma unequal_arrays_rejected_witness :
  outcome (executeImpl Scenarios.ArrayMapImpl "arrayMap"
             [Scenarios.lambdaArgument Scenarios.plus 2 [DataTypeInt64; DataTypeInt64];
              Scenarios.arrayArgument 1 [1; 2; 3]%Z [2; 3];
              Scenarios.arrayArgument 2 [1; 2; 3]%Z [1; 3]])
  = Throw "Arrays passed to arrayMap must have equal size" SIZES_OF_ARRAYS_DOESNT_MATCH.
Proof.
  refine (proj1 (@unequal_arrays_rejected
                   Scenarios.ArrayMapImpl "arrayMap"
                   (Scenarios.lambdaArgument Scenarios.plus 2 [DataTypeInt64; DataTypeInt64])
                   (Scenarios.arrayArgument 1 [1; 2; 3]%Z [2; 3])
                   (Scenarios.arrayArgument 2 [1; 2; 3]%Z [1; 3])
                   [] []
                   (ColumnFunction 2 Scenarios.plus [])
                   (ColumnVector [1; 2; 3]%Z) (ColumnVector [1; 2; 3]%Z)
                   (mkOffsets (Some 1) [2; 3]) (mkOffsets (Some 2) [1; 3])
                   eq_refl eq_refl _ (Forall_nil _) _ _ _ _)).
  - split; [reflexivity | discriminate].
  - split; [reflexivity | discriminate].
  - discriminate.
  - intros H; discriminate H.
  - intros H; discriminate H.
Defined.

(** ** Constant and dictionary-encoded arrays *)

Lemma firstn_exact {A} (l1 l2 : list A) (n : nat) :
  n = List.length l1 -> firstn n (l1 ++ l2) = l1.
Proof.
  intros ->. rewrite firstn_app, firstn_all, Nat.sub_diag. cbn [firstn].
  apply app_nil_r.
Qed.






(** C7, at the failing input: the array [[7, 7]] with dictionary-encoded
    elements is not materialised, the strategy that hands back the reference
    array returns it encoded, and the call on the materialised array returns
    a plain one. *)
Lemma dictionary_encoded_array_scenario :
  normalizeArray (column DictionaryScenario.encoded)
  = Ok (ColumnArray (ColumnLowCardinality [7%Z] [0; 0]) (mkOffsets (Some 1) [2]))
  /\ isPlain (ColumnArray (ColumnLowCardinality [7%Z] [0; 0]) (mkOffsets (Some 1) [2]))
     = false
  /\ outcome (executeImpl Scenarios.ArrayKeepImpl "arrayFilter"
                [DictionaryScenario.lambda; DictionaryScenario.encoded])
     = Ok (ColumnArray (ColumnLowCardinality [7%Z] [0; 0]) (mkOffsets (Some 1) [2]))
  /\ outcome (executeImpl Scenarios.ArrayKeepImpl "arrayFilter"
                [DictionaryScenario.lambda; DictionaryScenario.plain])
     = Ok (ColumnArray (ColumnVector [7; 7]%Z) (mkOffsets (Some 1) [2])).
Proof. repeat split. Qed.

(** ** Reading and building well-formed columns *)

Lemma omapM_Ok {A B} (f : A -> Outcome B) (l : list A) :
  (forall x, In x l -> exists y, f x = Ok y) ->
  exists ys, omapM f l = Ok ys /\ List.length ys = List.length l.
Proof.
  induction l as [| x l IH]; intros H; cbn [omapM].
  - exists []. split; reflexivity.
  - destruct (H x (or_introl eq_refl)) as (y & ->).
    destruct IH as (ys & -> & Hlen); [intros z Hz; apply H; now right |].
    exists (y :: ys). split; [reflexivity | cbn [List.length]; now rewrite Hlen].
Qed.

Lemma omapM_nth {A B} (f : A -> Outcome B) (l : list A) : forall ys,
  omapM f l = Ok ys ->
  forall i x, nth_error l i = Some x ->
  exists y, f x = Ok y /\ nth_error ys i = Some y.
Proof.
  induction l as [| a l IH]; intros ys H i x Hi.
  - destruct i; discriminate.
  - cbn [omapM] in H.
    destruct (f a) as [b | |] eqn:Ea; cbn [obind] in H; try discriminate.
    destruct (omapM f l) as [bs | |] eqn:El; cbn [obind] in H; try discriminate.
    inversion H; subst ys.
    destruct i as [| i]; cbn [nth_error] in *.
    + inversion Hi; subst. eauto.
    + exact (IH bs eq_refl i x Hi).
Qed.

Lemma last_nonempty_default {A} (l : list A) : forall (y d d' : A),
  last (y :: l) d = last (y :: l) d'.
Proof.
  induction l as [| x l IH]; intros y d d'; [reflexivity |].
  change (last (y :: x :: l) d) with (last (x :: l) d).
  change (last (y :: x :: l) d') with (last (x :: l) d').
  apply IH.
Qed.

(** In a sorted list of offsets every entry is at most the last. *)
Lemma sortedFrom_le_last offs : forall prev p e,
  sortedFrom prev offs = true ->
  nth_error offs p = Some e ->
  prev <= e /\ e <= last offs prev.
Proof.
  induction offs as [| x offs IH]; intros prev p e Hs Hp.
  - destruct p; discriminate.
  - cbn [sortedFrom] in Hs. apply andb_true_iff in Hs as [Hle Hs].
    apply Nat.leb_le in Hle.
    destruct p as [| p]; cbn [nth_error] in Hp.
    + inversion Hp; subst e. split; [assumption |].
      destruct offs as [| y offs']; [cbn; lia |].
      cbn [sortedFrom] in Hs. apply andb_true_iff in Hs as [Hxy Hs'].
      apply Nat.leb_le in Hxy.
      destruct (IH x 0 y) as [_ Hl]; [cbn [sortedFrom]; rewrite Hs';
        apply andb_true_iff; split; [now apply Nat.leb_le | reflexivity] | reflexivity |].
      change (last (x :: y :: offs') prev) with (last (y :: offs') prev).
      rewrite (last_nonempty_default offs' y prev x). lia.
    + destruct (IH x p e Hs Hp) as [Hxe Hl].
      split; [lia |].
      destruct offs as [| y offs']; [destruct p; discriminate |].
      change (last (x :: y :: offs') prev) with (last (y :: offs') prev).
      rewrite (last_nonempty_default offs' y prev x). exact Hl.
Qed.

(** Every row of a well-formed column can be read. *)
Lemma getField_wellFormed c : forall p,
  wellFormed c = true -> p < size c -> exists f, getField c p = Ok f.
Proof.
  induction c as [v | dict idx | d IH o | d IH s | n fn cap]; intros p Hwf Hp;
    cbn [wellFormed size getField] in *.
  - destruct (nth_error v p) eqn:E; [eauto |].
    apply nth_error_None in E. lia.
  - destruct (nth_error idx p) eqn:E; [eauto |].
    apply nth_error_None in E. lia.
  - apply andb_true_iff in Hwf as [Hwf Hd].
    apply andb_true_iff in Hwf as [Hsorted Hback].
    apply Nat.eqb_eq in Hback. unfold offsetsBack in Hback.
    destruct (nth_error (getData o) p) as [e |] eqn:E;
      [| apply nth_error_None in E; lia].
    destruct (sortedFrom_le_last _ _ p Hsorted E) as [_ Hle].
    destruct (omapM_Ok (getField d) (seq (offsetBefore (getData o) p)
                                         (e - offsetBefore (getData o) p)))
      as (fs & -> & _).
    + intros x Hx. apply in_seq in Hx. apply IH; [assumption | lia].
    + cbn [obind]. eauto.
  - apply andb_true_iff in Hwf as [Hone Hd]. apply Nat.eqb_eq in Hone.
    apply IH; [assumption | lia].
  - discriminate.
Qed.

(** Induction on values, with the hypothesis for the elements of an
    array. *)
Lemma Field_nested_ind (P : Field -> Prop)
    (HInt : forall z, P (FInt z))
    (HArray : forall fs, Forall P fs -> P (FArray fs)) :
  forall f, P f.
Proof.
  fix self 1. intros [z | fs].
  - apply HInt.
  - apply HArray. induction fs as [| x fs IH]; constructor; [apply self | exact IH].
Qed.

(** A value of the type of a column can be appended to it. *)
Lemma insert_fits f : forall t c,
  fits t f = true ->
  hasShape t c = true ->
  exists c', insert f c = Ok c' /\ hasShape t c' = true /\ size c' = S (size c).
Proof.
  induction f as [z | fs IH] using Field_nested_ind; intros t c Hf Hc.
  - destruct t, c; cbn in Hf, Hc; try discriminate; cbn [insert].
    + eexists; repeat split. cbn [size]. rewrite length_app. cbn. lia.
    + eexists; repeat split. cbn [size]. rewrite length_app. cbn. lia.
    + destruct (uniqueInsert dictionary z) as [dict' k].
      eexists; repeat split. cbn [size]. rewrite length_app. cbn. lia.
  - destruct t as [| | n | |]; cbn [fits] in Hf; try discriminate.
    destruct c as [| | d o | |]; cbn [hasShape] in Hc; try discriminate.
    cbn [insert].
    assert (Hall : exists d',
               (fix insertAll (l : list Field) (d0 : Column) {struct l} : Outcome Column :=
                  match l with
                  | [] => Ok d0
                  | x :: l' => obind (insert x d0) (insertAll l')
                  end) fs d = Ok d'
               /\ hasShape n d' = true).
    { clear o. revert d Hc Hf. induction IH as [| x l Hx _ IHl]; intros d Hc Hf.
      - exists d. split; [reflexivity | assumption].
      - cbn [forallb] in Hf. apply andb_true_iff in Hf as [Hfx Hfl].
        destruct (Hx n d Hfx Hc) as (d1 & -> & Hd1 & _). cbn [obind].
        exact (IHl d1 Hd1 Hfl). }
    destruct Hall as (d' & -> & Hd'). cbn [obind].
    eexists; repeat split; [exact Hd' |].
    cbn [size getData]. rewrite length_app. cbn. lia.
Qed.

Lemma insertRows_fits t vals : forall c,
  Forall (fun f => fits t f = true) vals ->
  hasShape t c = true ->
  exists c',
    insertRows c vals = Ok c'
    /\ hasShape t c' = true
    /\ size c' = size c + List.length vals.
Proof.
  induction vals as [| f vals IH]; intros c Hall Hc; unfold insertRows; cbn [ofoldM].
  - exists c. repeat split; [assumption | cbn; lia].
  - inversion Hall as [| f' l' Hf Hall']; subst.
    destruct (insert_fits f t c Hf Hc) as (c1 & -> & Hc1 & Hs1). cbn [obind].
    destruct (IH c1 Hall' Hc1) as (c' & Hins & Hc' & Hs').
    exists c'. repeat split; [exact Hins | exact Hc' |].
    cbn [List.length]. lia.
Qed.

Lemma createColumn_hasShape t : forall e,
  createColumn t = Ok e -> hasShape t e = true /\ size e = 0.
Proof.
  induction t as [| | n IH | d IH | args r]; intros e; cbn [createColumn]; try discriminate.
  - intros [= <-]. split; reflexivity.
  - intros [= <-]. split; reflexivity.
  - destruct (createColumn n) as [d | |]; cbn [obind]; try discriminate.
    intros [= <-]. split; [exact (proj1 (IH d eq_refl)) | reflexivity].
  - intros [= <-]. split; reflexivity.
Qed.

(** Dictionary encoding resolved: the column is no dictionary-encoded column
    and keeps its number of rows. *)
Lemma convertToFullColumnIfLowCardinality_plain c :
  lowCardinality (convertToFullColumnIfLowCardinality c) = false
  /\ size (convertToFullColumnIfLowCardinality c) = size c.
Proof.
  destruct c; cbn; split; try reflexivity.
  unfold decode. now rewrite length_map.
Qed.

(** ** The flat broadcast *)

Lemma sum_rowSizesFrom offs : forall prev,
  sortedFrom prev offs = true ->
  list_sum (rowSizesFrom prev offs) + prev = last offs prev.
Proof.
  induction offs as [| x offs IH]; intros prev Hs; [reflexivity |].
  cbn [sortedFrom] in Hs. apply andb_true_iff in Hs as [Hle Hs].
  apply Nat.leb_le in Hle.
  specialize (IH x Hs).
  destruct offs as [| y offs'].
  - cbn in *. lia.
  - change (last (x :: y :: offs') prev) with (last (y :: offs') prev).
    rewrite (last_nonempty_default offs' y prev x).
    unfold list_sum in *. cbn [rowSizesFrom fold_right] in *. lia.
Qed.

Lemma columnsOf_app (l1 l2 : ColumnsWithTypeAndName) :
  columnsOf (l1 ++ l2)%list
  = obind (columnsOf l1) (fun c1 => obind (columnsOf l2) (fun c2 => Ok (c1 ++ c2)%list)).
Proof. apply omapM_app. Qed.

(** The arrays after the first, all with the canonical offsets, add their
    flat data columns to [arrays], in order. *)
Lemma collectArrays_data name_ o1 others : forall ds i st cs,
  offsets_column st = Some o1 ->
  columnsOf (arrays st) = Ok cs ->
  2 <= i ->
  Forall2 (fun a d => exists o, normalizesTo a d o /\ getData o = getData o1) others ds ->
  exists st',
    ofoldM (collectArray name_) st (combine (seq i (List.length others)) others) = Ok st'
    /\ column_first_array st' = column_first_array st
    /\ columnsOf (arrays st') = Ok (cs ++ ds)%list.
Proof.
  induction others as [| a others IH]; intros ds i st cs Hst Hcs Hi Hall;
    inversion Hall as [| a' d' l1 l2 (o & Ha & Ho) Hall']; subst;
    cbn [List.length seq combine ofoldM].
  - exists st. rewrite app_nil_r. repeat split; assumption.
  - destruct Ha as [Hn Ht].
    unfold collectArray at 1. rewrite Hn. cbn [obind].
    destruct (asDataTypeArray (type a)) as [nested |] eqn:Et; [| contradiction].
    cbn [checkAndGetColumnArray]. rewrite Hst, (sameData_true _ _ Ho), andb_false_r.
    cbn [obind].
    destruct (i =? 1) eqn:Ei; [apply Nat.eqb_eq in Ei; lia |].
    match goal with
    | |- exists st', ofoldM _ ?s _ = _ /\ _ =>
        destruct (IH l2 (S i) s (cs ++ [d'])%list) as (st' & Hfold & Hfa & Hcols)
    end.
    + reflexivity.
    + cbn [arrays]. rewrite columnsOf_app, Hcs. reflexivity.
    + lia.
    + assumption.
    + exists st'. repeat split; [exact Hfold | exact Hfa |].
      now rewrite Hcols, <- app_assoc.
Qed.

Lemma callArguments_wellFormed cols n p :
  Forall (fun c => wellFormed c = true /\ size c = n) cols ->
  p < n ->
  callArguments cols p = Ok (argumentsAt cols p).
Proof.
  intros Hall Hp. unfold argumentsAt.
  destruct (omapM_Ok (fun c => getField c p) cols) as (args & Hargs & _).
  - intros c Hc. rewrite Forall_forall in Hall.
    destruct (Hall c Hc) as [Hwf Hsize].
    apply getField_wellFormed; [assumption | lia].
  - unfold callArguments. now rewrite Hargs.
Qed.

(** C6.  A strategy that does not fold, a closure column with one closure
    per row, arrays that all carry the canonical offsets, the bound columns
    and the flat data columns well formed and as long as the last offset [N],
    a lambda whose values are of its result type.  Then [executeImpl]
    broadcasts the closure by the canonical offsets and binds the flat data
    column of every array, in order; the evaluated column holds, for each
    element [p < N] in the order of the flat data (row after row, and within
    a row element after element), the value of the lambda on row [p] of the
    bound columns; it has [N] rows, the sum of the numbers of elements of the
    rows; freed of dictionary encoding, it goes to the strategy's [execute]
    with the first array, and the outcome of [execute] is the outcome of the
    call. *)
Theorem broadcast_maps_every_element (impl : Impl) (name_ : string)
    (lambda first : ColumnWithTypeAndName) (others : ColumnsWithTypeAndName)
    (n : nat) (fn : Lambda) (cap cap' : list Column)
    (d1 : Column) (o1 : ColumnOffsets) (ds : list Column) (e : Column) :
  isFolding impl = false ->
  column lambda = Some (ColumnFunction n fn cap) ->
  n = List.length (getData o1) ->
  normalizesTo first d1 o1 ->
  Forall2 (fun a d => exists o, normalizesTo a d o /\ getData o = getData o1) others ds ->
  omapM (fun x => replicate x (getData o1)) cap = Ok cap' ->
  Forall (fun c => wellFormed c = true /\ size c = offsetsBack (getData o1))
         (cap' ++ d1 :: ds) ->
  sortedFrom 0 (getData o1) = true ->
  createColumn (getResultType fn) = Ok e ->
  (forall args, fits (getResultType fn) (body fn args) = true) ->
  exists mapped,
    insertRows e (map (fun p => body fn (argumentsAt (cap' ++ d1 :: ds) p))
                      (seq 0 (offsetsBack (getData o1))))
    = Ok mapped
    /\ size mapped = offsetsBack (getData o1)
    /\ offsetsBack (getData o1) = list_sum (elementsPerRow (getData o1))
    /\ lowCardinality (convertToFullColumnIfLowCardinality mapped) = false
    /\ size (convertToFullColumnIfLowCardinality mapped) = offsetsBack (getData o1)
    /\ outcome (executeImpl impl name_ (lambda :: first :: others))
       = execute impl (ColumnArray d1 o1) (convertToFullColumnIfLowCardinality mapped).
Proof.
  intros Hfold Hl Hn Hfirst Hothers Hcap Hwf Hsorted He Hfits.
  set (N := offsetsBack (getData o1)) in *.
  destruct (createColumn_hasShape _ He) as [Hshape Hsize0].
  destruct (@insertRows_fits (getResultType fn)
              (map (fun p => body fn (argumentsAt (cap' ++ d1 :: ds) p)) (seq 0 N)) e)
    as (mapped & Hmapped & _ & Hsize); [| exact Hshape |].
  { apply Forall_forall. intros f Hf. apply in_map_iff in Hf as (p & <- & _). apply Hfits. }
  rewrite length_map, length_seq, Hsize0 in Hsize. cbn [Nat.add] in Hsize.
  exists mapped.
  destruct (convertToFullColumnIfLowCardinality_plain mapped) as [Hplain Hsame].
  split; [exact Hmapped |]. split; [exact Hsize |].
  split; [subst N; unfold elementsPerRow, offsetsBack;
          now rewrite <- (sum_rowSizesFrom _ _ Hsorted), Nat.add_0_r |].
  split; [exact Hplain |]. split; [now rewrite Hsame |].
  unfold executeImpl. rewrite !mbind_cerr. cbn [outcome snd].
  unfold executeMapped. rewrite Hl. cbn [isColumnFunction negb].
  assert (Hcollect : exists st,
             collectArrays impl name_ (lambda :: first :: others) = Ok st
             /\ column_first_array st = Some (d1, o1)
             /\ columnsOf (arrays st) = Ok (d1 :: ds)).
  { unfold collectArrays. rewrite Hfold. cbn [List.length skipn].
    replace (S (S (List.length others)) - 0 - 1) with (S (List.length others)) by lia.
    cbn [firstn seq combine ofoldM]. rewrite firstn_all.
    destruct (collectArray_first name_ Hfirst) as (st1 & -> & Hst1 & Hfa1 & Hcols1).
    cbn [obind].
    destruct (collectArrays_data name_ (i := 2) st1 Hst1 Hcols1 (le_n 2) Hothers)
      as (st' & -> & Hfa' & Hcols').
    cbn [obind]. exists st'. repeat split; [congruence | exact Hcols']. }
  destruct Hcollect as (st & -> & Hfa & Hcols).
  rewrite mbind_lift_Ok, mbind_cerr. cbn [outcome snd].
  rewrite Hfa, mbind_lift_Ok, !mbind_cerr. cbn [outcome snd].
  rewrite Hfold. cbn [andb].
  unfold broadcast. cbn [snd fst arrayColumn replicate size].
  rewrite Hn, Nat.eqb_refl. cbn [negb]. rewrite Hcap. cbn [obind].
  replace (if List.length (getData o1) =? 0 then 0 else offsetsBack (getData o1)) with N
    by (subst N; destruct (getData o1); reflexivity).
  rewrite mbind_lift_Ok. unfold appendArguments. rewrite Hcols. cbn [obind].
  rewrite mbind_lift_Ok. unfold reduce.
  rewrite (omapM_ext_in _ (fun p => Ok (body fn (argumentsAt (cap' ++ d1 :: ds) p)))).
  - rewrite omapM_Ok_map. cbn [obind]. rewrite He. cbn [obind]. rewrite Hmapped.
    rewrite mbind_lift_Ok.
    replace (if lowCardinality mapped
             then convertToFullColumnIfLowCardinality mapped else mapped)
      with (convertToFullColumnIfLowCardinality mapped)
      by (destruct mapped; reflexivity).
    apply outcome_lift_cerr_mret.
  - intros p Hp. apply in_seq in Hp.
    rewrite (@callArguments_wellFormed (cap' ++ d1 :: ds) N p Hwf); [reflexivity | lia].
Qed.

Lemma plus_fits args : fits (getResultType Scenarios.plus) (body Scenarios.plus args) = true.
Proof.
  cbn [Scenarios.plus body getResultType].
  destruct args as [| [x | xs] [| [y | ys] [| z rest]]]; reflexivity.
Qed.

Lemma broadcast_maps_every_element_witness :
  exists mapped,
    insertRows (ColumnVector [])
      (map (fun p => body Scenarios.plus
                       (argumentsAt [ColumnVector [1; 2; 3]%Z; ColumnVector [10; 20; 30]%Z] p))
           (seq 0 3))
    = Ok mapped
    /\ size mapped = 3
    /\ 3 = list_sum (elementsPerRow [2; 3])
    /\ lowCardinality (convertToFullColumnIfLowCardinality mapped) = false
    /\ size (convertToFullColumnIfLowCardinality mapped) = 3
    /\ outcome (executeImpl Scenarios.ArrayMapImpl "arrayMap"
                  [Scenarios.lambdaArgument Scenarios.plus 2 [DataTypeInt64; DataTypeInt64];
                   Scenarios.arrayArgument 1 [1; 2; 3]%Z [2; 3];
                   Scenarios.arrayArgument 2 [10; 20; 30]%Z [2; 3]])
       = execute Scenarios.ArrayMapImpl
           (ColumnArray (ColumnVector [1; 2; 3]%Z) (mkOffsets (Some 1) [2; 3]))
           (convertToFullColumnIfLowCardinality mapped).
Proof.
  refine (@broadcast_maps_every_element
            Scenarios.ArrayMapImpl "arrayMap"
            (Scenarios.lambdaArgument Scenarios.plus 2 [DataTypeInt64; DataTypeInt64])
            (Scenarios.arrayArgument 1 [1; 2; 3]%Z [2; 3])
            [Scenarios.arrayArgument 2 [10; 20; 30]%Z [2; 3]]
            2 Scenarios.plus [] []
            (ColumnVector [1; 2; 3]%Z) (mkOffsets (Some 1) [2; 3])
            [ColumnVector [10; 20; 30]%Z] (ColumnVector [])
            eq_refl eq_refl eq_refl _ _ eq_refl _ eq_refl eq_refl plus_fits).
  - split; [reflexivity | discriminate].
  - constructor; [| constructor].
    exists (mkOffsets (Some 2) [2; 3]).
    split; [split; [reflexivity | discriminate] | reflexivity].
  - repeat constructor.
Defined.

(** The transform of scenario 1 and the broadcast over two zipped arrays. *)
Example transform_scenario :
  outcome (executeImpl Scenarios.ArrayMapImpl "arrayMap" Scenarios.transform)
  = Ok (ColumnArray (ColumnVector [2; 4; 6]%Z) (mkOffsets (Some 1) [3])).
Proof. reflexivity. Qed.

Example zipped_scenario :
  outcome (executeImpl Scenarios.ArrayMapImpl "arrayMap"
             [Scenarios.lambdaArgument Scenarios.plus 2 [DataTypeInt64; DataTypeInt64];
              Scenarios.arrayArgument 1 [1; 2; 3]%Z [2; 3];
              Scenarios.arrayArgument 2 [10; 20; 30]%Z [2; 3]])
  = Ok (ColumnArray (ColumnVector [11; 22; 33]%Z) (mkOffsets (Some 1) [2; 3])).
Proof. reflexivity. Qed.

(** A lambda whose result column is dictionary-encoded: the evaluated column
    reaches the strategy as a plain column. *)
Example dictionary_result_scenario :
  reduce (ColumnFunction 3 (Scenarios.identity (DataTypeLowCardinality DataTypeInt64))
                         [ColumnVector [7; 8; 7]%Z])
  = Ok (ColumnLowCardinality [7; 8]%Z [0; 1; 0])
  /\ outcome (executeImpl Scenarios.ArrayMapImpl "arrayMap"
                [Scenarios.lambdaArgument
                   (Scenarios.identity (DataTypeLowCardinality DataTypeInt64)) 1
                   [DataTypeInt64];
                 Scenarios.arrayArgument 1 [7; 8; 7]%Z [3]])
     = Ok (ColumnArray (ColumnVector [7; 8; 7]%Z) (mkOffsets (Some 1) [3])).
Proof. split; reflexivity. Qed.

(** The fold of one row with one element: the accumulator, no array, takes
    no part in the comparison of the offsets, and the row returns the lambda
    on its element and its seed. *)
Example fold_single_element_scenario :
  outcome (executeImpl Scenarios.ArrayFoldImpl "arrayFold"
             [Scenarios.lambdaArgument Scenarios.plus 1 [DataTypeInt64; DataTypeInt64];
              Scenarios.arrayArgument 1 [5]%Z [1];
              Scenarios.seedArgument [10]%Z])
  = Ok (ColumnVector [15]%Z)
  /\ foldContract (body Scenarios.plus) [[[FInt 5]]] [FInt 10] = [FInt 15].
Proof. split; reflexivity. Qed.

(** * Further properties of the type checks *)

(** The loop of lines 72-79 over array types: every element type, freed of
    dictionary encoding, in order. *)
Lemma nested_types_of_arrays name_ (nested : list DataType) : forall i,
  omapM (fun '(i, t) =>
           match asDataTypeArray t with
           | None =>
               Throw ("Argument " ++ toString (i + 2) ++ " of function " ++ name_
                      ++ " must be array. Found " ++ IDataType_getName t ++ " instead.")
                     ILLEGAL_TYPE_OF_ARGUMENT
           | Some n => Ok (recursiveRemoveLowCardinalityType n)
           end)
        (combine (seq i (List.length nested)) (map DataTypeArray nested))
  = Ok (map recursiveRemoveLowCardinalityType nested).
Proof.
  induction nested as [| n nested IH]; intros i; cbn [List.length seq map combine omapM].
  - reflexivity.
  - cbn [asDataTypeArray obind]. now rewrite IH.
Qed.

(** The loop stops at the first type that is no array and reports its
    position among the arguments, counted from 1. *)
Lemma nested_types_stop name_ (bad : DataType) (tail : list DataType) :
  asDataTypeArray bad = None ->
  forall (nested : list DataType) i n,
    List.length nested < n ->
    omapM (fun '(i, t) =>
             match asDataTypeArray t with
             | None =>
                 Throw ("Argument " ++ toString (i + 2) ++ " of function " ++ name_
                        ++ " must be array. Found " ++ IDataType_getName t ++ " instead.")
                       ILLEGAL_TYPE_OF_ARGUMENT
             | Some n => Ok (recursiveRemoveLowCardinalityType n)
             end)
          (combine (seq i n) (map DataTypeArray nested ++ bad :: tail))
    = Throw ("Argument " ++ toString (i + List.length nested + 2) ++ " of function " ++ name_
             ++ " must be array. Found " ++ IDataType_getName bad ++ " instead.")
            ILLEGAL_TYPE_OF_ARGUMENT.
Proof.
  intros Hbad. induction nested as [| t nested IH]; intros i n Hn;
    destruct n as [| n]; cbn [List.length] in Hn; try lia;
    cbn [map app seq combine omapM].
  - rewrite Hbad. cbn [obind List.length]. now rewrite Nat.add_0_r.
  - cbn [asDataTypeArray obind]. rewrite IH by lia. cbn [obind List.length].
    now replace (S i + List.length nested + 2) with (i + S (List.length nested) + 2) by lia.
Qed.

(** X1.  [getLambdaArgumentTypes] refuses the first argument type in an
    array position that is no array type, with [ILLEGAL_TYPE_OF_ARGUMENT]
    and a message that gives the position of that argument counted from 1
    and the name of the type found; the first argument is not looked at
    before.  In a fold the last argument type is no array position. *)
Theorem getLambdaArgumentTypes_refuses_non_array (impl : Impl) (name_ : string)
    (a0 bad : DataType) (nested tail : list DataType) :
  asDataTypeArray bad = None ->
  (isFolding impl = true -> tail <> []) ->
  getLambdaArgumentTypes impl name_ (a0 :: map DataTypeArray nested ++ bad :: tail)
  = Throw ("Argument " ++ toString (List.length nested + 2) ++ " of function " ++ name_
           ++ " must be array. Found " ++ IDataType_getName bad ++ " instead.")
          ILLEGAL_TYPE_OF_ARGUMENT.
Proof.
  intros Hbad Htail. unfold getLambdaArgumentTypes, getName.
  destruct (map DataTypeArray nested ++ bad :: tail)%list as [| r rest] eqn:E;
    [destruct nested; discriminate |].
  rewrite <- E. clear E r rest.
  cbn [List.length]. rewrite length_app, length_map. cbn [List.length].
  set (k := S (List.length nested + S (List.length tail)) - 1
            - (if isFolding impl then 1 else 0)).
  assert (Hk : List.length nested < k).
  { subst k. destruct (isFolding impl).
    - specialize (Htail eq_refl). destruct tail; [contradiction | cbn [List.length]; lia].
    - lia. }
  assert (Hk' : List.length (map DataTypeArray nested) < k) by now rewrite length_map.
  rewrite (firstn_past_app _ _ _ Hk').
  rewrite (@nested_types_stop name_ bad _ Hbad nested 0 k Hk).
  reflexivity.
Qed.

Lemma getLambdaArgumentTypes_refuses_non_array_witness :
  getLambdaArgumentTypes Scenarios.ArrayFoldImpl "arrayFold"
    [DataTypeFunction [DataTypeInt64; DataTypeInt64; DataTypeInt64] None;
     DataTypeArray DataTypeInt64; DataTypeUInt8; DataTypeInt64]
  = Throw "Argument 3 of function arrayFold must be array. Found UInt8 instead."
          ILLEGAL_TYPE_OF_ARGUMENT.
Proof.
  refine (@getLambdaArgumentTypes_refuses_non_array Scenarios.ArrayFoldImpl "arrayFold"
            (DataTypeFunction [DataTypeInt64; DataTypeInt64; DataTypeInt64] None)
            DataTypeUInt8 [DataTypeInt64] [DataTypeInt64] eq_refl _).
  intros _; discriminate.
Defined.

(** X2.  When every array position holds an array type and the first
    argument is a function type with one argument per array, and one more
    for the accumulator of a fold, [getLambdaArgumentTypes] accepts: it
    replaces the first argument by the function type over the element types
    of the arrays, freed of dictionary encoding and in order, followed in a
    fold by the type of the accumulator as it is (no array is asked of it);
    the new function type has no return type yet, and the other arguments
    are unchanged. *)
Theorem getLambdaArgumentTypes_accepts (impl : Impl) (name_ : string)
    (argument_types : list DataType) (ret : option DataType)
    (nested : list DataType) (acc : DataType) :
  (map DataTypeArray nested ++ accumulatorType impl acc)%list <> [] ->
  List.length argument_types
  = List.length nested + List.length (accumulatorType impl acc) ->
  getLambdaArgumentTypes impl name_
    (DataTypeFunction argument_types ret
       :: map DataTypeArray nested ++ accumulatorType impl acc)
  = Ok (DataTypeFunction
          (map recursiveRemoveLowCardinalityType nested ++ accumulatorType impl acc) None
          :: map DataTypeArray nested ++ accumulatorType impl acc)%list.
Proof.
  intros Hne Hlen. unfold getLambdaArgumentTypes, getName.
  destruct (map DataTypeArray nested ++ accumulatorType impl acc)%list
    as [| r rest] eqn:E; [contradiction |].
  rewrite <- E. clear E r rest Hne.
  cbn [List.length asDataTypeFunction].
  rewrite length_app, length_map, !Nat.sub_succ, !Nat.sub_0_r.
  unfold accumulatorType in *.
  destruct (isFolding impl); cbn [List.length] in *.
  - replace (List.length nested + 1 - 1) with (List.length nested) by lia.
    rewrite firstn_exact by now rewrite length_map.
    rewrite nested_types_of_arrays. cbn [obind].
    change (DataTypeFunction argument_types ret :: map DataTypeArray nested ++ [acc])%list
      with ((DataTypeFunction argument_types ret :: map DataTypeArray nested) ++ [acc])%list.
    rewrite last_last.
    apply Nat.eqb_eq in Hlen. now rewrite Hlen.
  - rewrite !app_nil_r, Nat.add_0_r, Nat.sub_0_r in *.
    rewrite <- (length_map DataTypeArray nested) at 2. rewrite firstn_all.
    rewrite nested_types_of_arrays. cbn [obind].
    apply Nat.eqb_eq in Hlen. now rewrite Hlen.
Qed.

Lemma getLambdaArgumentTypes_accepts_witness :
  getLambdaArgumentTypes Scenarios.ArrayFoldImpl "arrayFold"
    [DataTypeFunction [DataTypeInt64; DataTypeInt64] None;
     DataTypeArray (DataTypeLowCardinality DataTypeInt64); DataTypeUInt8]
  = Ok [DataTypeFunction [DataTypeInt64; DataTypeUInt8] None;
        DataTypeArray (DataTypeLowCardinality DataTypeInt64); DataTypeUInt8].
Proof.
  refine (@getLambdaArgumentTypes_accepts Scenarios.ArrayFoldImpl "arrayFold"
            [DataTypeInt64; DataTypeInt64] None
            [DataTypeLowCardinality DataTypeInt64] DataTypeUInt8 _ eq_refl).
  discriminate.
Defined.

(** X3.  With array types in every array position, a first argument that is
    no function type, or a function type with another number of arguments
    than the arrays (and the accumulator of a fold), is refused with
    [ILLEGAL_TYPE_OF_ARGUMENT]; the message gives the number of arguments
    asked for and the name of the type found. *)
Theorem getLambdaArgumentTypes_refuses_arity (impl : Impl) (name_ : string)
    (a0 : DataType) (nested : list DataType) (acc : DataType) :
  (map DataTypeArray nested ++ accumulatorType impl acc)%list <> [] ->
  (forall argument_types ret,
      a0 = DataTypeFunction argument_types ret ->
      List.length argument_types
      <> List.length nested + List.length (accumulatorType impl acc)) ->
  getLambdaArgumentTypes impl name_
    (a0 :: map DataTypeArray nested ++ accumulatorType impl acc)
  = Throw ("First argument for this overload of " ++ name_
           ++ " must be a function with "
           ++ toString (List.length nested + List.length (accumulatorType impl acc))
           ++ " arguments. Found " ++ IDataType_getName a0 ++ " instead.")
          ILLEGAL_TYPE_OF_ARGUMENT.
Proof.
  intros Hne Harity. unfold getLambdaArgumentTypes, getName.
  destruct (map DataTypeArray nested ++ accumulatorType impl acc)%list
    as [| r rest] eqn:E; [contradiction |].
  rewrite <- E. clear E r rest Hne.
  cbn [List.length]. rewrite length_app, length_map, !Nat.sub_succ, !Nat.sub_0_r.
  assert (Hloop :
    omapM (fun '(i, t) =>
             match asDataTypeArray t with
             | None =>
                 Throw ("Argument " ++ toString (i + 2) ++ " of function " ++ name_
                        ++ " must be array. Found " ++ IDataType_getName t ++ " instead.")
                       ILLEGAL_TYPE_OF_ARGUMENT
             | Some n => Ok (recursiveRemoveLowCardinalityType n)
             end)
          (combine
             (seq 0 (List.length nested + List.length (accumulatorType impl acc)
                     - (if isFolding impl then 1 else 0)))
             (firstn (List.length nested + List.length (accumulatorType impl acc)
                      - (if isFolding impl then 1 else 0))
                     (map DataTypeArray nested ++ accumulatorType impl acc)))
    = Ok (map recursiveRemoveLowCardinalityType nested)).
  { unfold accumulatorType. destruct (isFolding impl); cbn [List.length].
    - replace (List.length nested + 1 - 1) with (List.length nested) by lia.
      rewrite firstn_exact by now rewrite length_map.
      apply nested_types_of_arrays.
    - rewrite app_nil_r, Nat.add_0_r, Nat.sub_0_r.
      rewrite <- (length_map DataTypeArray nested) at 2. rewrite firstn_all.
      apply nested_types_of_arrays. }
  rewrite Hloop. cbn [obind].
  destruct a0 as [| | n | d | argument_types ret]; cbn [asDataTypeFunction]; try reflexivity.
  specialize (Harity argument_types ret eq_refl).
  apply Nat.eqb_neq in Harity. now rewrite Harity.
Qed.

Lemma getLambdaArgumentTypes_refuses_arity_witness :
  getLambdaArgumentTypes Scenarios.ArrayMapImpl "arrayMap"
    [DataTypeFunction [DataTypeInt64] None;
     DataTypeArray DataTypeInt64; DataTypeArray DataTypeInt64]
  = Throw ("First argument for this overload of arrayMap must be a function with 2"
           ++ " arguments. Found Function(Int64 -> ) instead.")
          ILLEGAL_TYPE_OF_ARGUMENT.
Proof.
  refine (@getLambdaArgumentTypes_refuses_arity Scenarios.ArrayMapImpl "arrayMap"
            (DataTypeFunction [DataTypeInt64] None)
            [DataTypeInt64; DataTypeInt64] DataTypeInt64 _ _).
  - discriminate.
  - intros argument_types ret [= <- _]. cbn. lia.
Defined.

(** X4.  What [getLambdaArgumentTypes] returns when it accepts: there were
    at least two argument types, only the first is replaced, by a function
    type with one argument per other argument and no return type; and the
    check is idempotent, the returned types are accepted again and returned
    as they are. *)
Theorem getLambdaArgumentTypes_idempotent (impl : Impl) (name_ : string)
    (arguments arguments' : list DataType) :
  getLambdaArgumentTypes impl name_ arguments = Ok arguments' ->
  exists a0 rest nested_types,
    arguments = a0 :: rest
    /\ rest <> []
    /\ arguments' = DataTypeFunction nested_types None :: rest
    /\ List.length nested_types = List.length rest
    /\ getLambdaArgumentTypes impl name_ arguments' = Ok arguments'.
Proof.
  intros H. unfold getLambdaArgumentTypes in H.
  destruct arguments as [| a0 [| a1 rest]]; try discriminate.
  cbn [List.length] in H. rewrite Nat.sub_succ, Nat.sub_0_r in H.
  set (skip := if isFolding impl then 1 else 0) in *.
  set (check := fun '(i, t) => match asDataTypeArray t with
                               | Some n => Ok (recursiveRemoveLowCardinalityType n)
                               | None => _
                               end) in H.
  destruct (omapM check (combine (seq 0 (S (List.length rest) - skip))
                                 (firstn (S (List.length rest) - skip) (a1 :: rest))))
    as [array_types | |] eqn:Eloop; cbn [obind] in H; try discriminate.
  assert (Hlen : List.length array_types = S (List.length rest) - skip).
  { rewrite (omapM_length _ _ Eloop), length_combine, length_seq, length_firstn.
    cbn [List.length]. lia. }
  destruct (asDataTypeFunction a0) as [[argument_types ret] |]; try discriminate.
  destruct (List.length argument_types =? S (List.length rest)); try discriminate.
  change (last (a0 :: a1 :: rest) a0) with (last (a1 :: rest) a0) in H.
  set (nested_types := if isFolding impl
                       then (array_types ++ [last (a1 :: rest) a0])%list
                       else array_types) in *.
  assert (Hn : List.length nested_types = S (List.length rest)).
  { subst nested_types skip. destruct (isFolding impl).
    - rewrite length_app. cbn [List.length]. lia.
    - lia. }
  inversion H as [Hargs]. clear H.
  exists a0, (a1 :: rest), nested_types.
  split; [reflexivity |]. split; [discriminate |]. split; [reflexivity |].
  split; [exact Hn |].
  unfold getLambdaArgumentTypes.
  cbn [List.length]. rewrite Nat.sub_succ, Nat.sub_0_r.
  fold skip. fold check. rewrite Eloop. cbn [obind asDataTypeFunction].
  change (last (DataTypeFunction nested_types None :: a1 :: rest)
               (DataTypeFunction nested_types None))
    with (last (a1 :: rest) (DataTypeFunction nested_types None)).
  rewrite (last_nonempty_default rest a1 (DataTypeFunction nested_types None) a0).
  fold nested_types. apply Nat.eqb_eq in Hn. now rewrite Hn.
Qed.

Lemma getLambdaArgumentTypes_idempotent_witness :
  exists a0 rest nested_types,
    [DataTypeFunction [DataTypeInt64] (Some DataTypeUInt8); DataTypeArray DataTypeInt64]
    = a0 :: rest
    /\ rest <> []
    /\ [DataTypeFunction [DataTypeInt64] None; DataTypeArray DataTypeInt64]
       = DataTypeFunction nested_types None :: rest
    /\ List.length nested_types = List.length rest
    /\ getLambdaArgumentTypes Scenarios.ArrayMapImpl "arrayMap"
         [DataTypeFunction [DataTypeInt64] None; DataTypeArray DataTypeInt64]
       = Ok [DataTypeFunction [DataTypeInt64] None; DataTypeArray DataTypeInt64].
Proof.
  exact (@getLambdaArgumentTypes_idempotent Scenarios.ArrayMapImpl "arrayMap"
           [DataTypeFunction [DataTypeInt64] (Some DataTypeUInt8); DataTypeArray DataTypeInt64]
           [DataTypeFunction [DataTypeInt64] None; DataTypeArray DataTypeInt64]
           eq_refl).
Defined.

(** X5.  A strategy that takes one array only refuses every call with more
    than two arguments with [NUMBER_OF_ARGUMENTS_DOESNT_MATCH], before it
    looks at the type of any argument. *)
Theorem getReturnTypeImpl_one_array_only (impl : Impl) (name_ : string)
    (arguments : ColumnsWithTypeAndName) :
  needOneArray impl = true ->
  2 < List.length arguments ->
  getReturnTypeImpl impl name_ arguments
  = Throw ("Function " ++ name_ ++ " needs one array argument.")
          NUMBER_OF_ARGUMENTS_DOESNT_MATCH.
Proof.
  intros Hone Hlen. unfold getReturnTypeImpl, getName.
  assert (Hmin : (List.length arguments <? (if needExpression impl then 2 else 1)) = false).
  { apply Nat.ltb_ge. destruct (needExpression impl); lia. }
  rewrite Hmin.
  destruct arguments as [| a0 [| a1 rest]]; cbn [List.length] in Hlen; try lia.
  apply Nat.ltb_lt in Hlen. cbn [List.length]. now rewrite Hlen, Hone.
Qed.

Lemma getReturnTypeImpl_one_array_only_witness :
  getReturnTypeImpl Scenarios.ArrayKeepImpl "arrayFilter"
    [Scenarios.seedArgument []; Scenarios.seedArgument []; Scenarios.seedArgument []]
  = Throw "Function arrayFilter needs one array argument." NUMBER_OF_ARGUMENTS_DOESNT_MATCH.
Proof.
  refine (@getReturnTypeImpl_one_array_only Scenarios.ArrayKeepImpl "arrayFilter"
            [Scenarios.seedArgument []; Scenarios.seedArgument []; Scenarios.seedArgument []]
            eq_refl _).
  simpl. lia.
Defined.

(** X6.  Where the strategy needs a boolean, dictionary encoding is looked
    through for the lambda and not for the overload with one argument: a
    lambda that returns [LowCardinality(UInt8)] over one array is accepted,
    with the return type computed from [UInt8]; the single argument of type
    [Array(LowCardinality(UInt8))] is refused with
    [ILLEGAL_TYPE_OF_ARGUMENT]. *)
Theorem getReturnTypeImpl_boolean_and_dictionary (impl : Impl) (name_ : string)
    (lambda array : ColumnWithTypeAndName) (argument_types : list DataType)
    (nested : DataType) :
  needBoolean impl = true ->
  isFolding impl = false ->
  type lambda = DataTypeFunction argument_types
                  (Some (DataTypeLowCardinality DataTypeUInt8)) ->
  type array = DataTypeArray nested ->
  getReturnTypeImpl impl name_ [lambda; array]
  = Ok (getReturnType impl (Some DataTypeUInt8) nested)
  /\ (needExpression impl = false ->
      nested = DataTypeLowCardinality DataTypeUInt8 ->
      getReturnTypeImpl impl name_ [array]
      = Throw ("The only argument for function " ++ name_
               ++ " must be array of UInt8. Found Array(LowCardinality(UInt8)) instead.")
              ILLEGAL_TYPE_OF_ARGUMENT).
Proof.
  intros Hbool Hfold Hl Ha. split.
  - unfold getReturnTypeImpl. cbn [List.length].
    replace (2 <? (if needExpression impl then 2 else 1)) with false
      by (destruct (needExpression impl); reflexivity).
    cbn [Nat.ltb Nat.leb andb]. rewrite Hl, Hbool, Hfold, Ha. reflexivity.
  - intros Hexpr ->. unfold getReturnTypeImpl, getName. rewrite Hexpr.
    cbn [List.length Nat.ltb Nat.leb]. rewrite Ha, Hbool. reflexivity.
Qed.

Lemma getReturnTypeImpl_boolean_and_dictionary_witness :
  getReturnTypeImpl
    (mkImpl true false false false (fun _ _ => DataTypeUInt8) (fun _ mapped => Ok mapped))
    "arrayExists"
    [mkArg None (DataTypeFunction [DataTypeUInt8]
                   (Some (DataTypeLowCardinality DataTypeUInt8))) "lambda";
     mkArg None (DataTypeArray (DataTypeLowCardinality DataTypeUInt8)) "array"]
  = Ok DataTypeUInt8
  /\ getReturnTypeImpl
       (mkImpl true false false false (fun _ _ => DataTypeUInt8) (fun _ mapped => Ok mapped))
       "arrayExists"
       [mkArg None (DataTypeArray (DataTypeLowCardinality DataTypeUInt8)) "array"]
     = Throw ("The only argument for function arrayExists"
              ++ " must be array of UInt8. Found Array(LowCardinality(UInt8)) instead.")
             ILLEGAL_TYPE_OF_ARGUMENT.
Proof.
  destruct (@getReturnTypeImpl_boolean_and_dictionary
              (mkImpl true false false false (fun _ _ => DataTypeUInt8)
                      (fun _ mapped => Ok mapped))
              "arrayExists"
              (mkArg None (DataTypeFunction [DataTypeUInt8]
                             (Some (DataTypeLowCardinality DataTypeUInt8))) "lambda")
              (mkArg None (DataTypeArray (DataTypeLowCardinality DataTypeUInt8)) "array")
              [DataTypeUInt8] (DataTypeLowCardinality DataTypeUInt8)
              eq_refl eq_refl eq_refl eq_refl) as [Hlambda Hsingle].
  split; [exact Hlambda | exact (Hsingle eq_refl eq_refl)].
Defined.

Lemma omapM_Throw_inv {A B} (f : A -> Outcome B) (l : list A) msg code :
  omapM f l = Throw msg code -> exists x, In x l /\ f x = Throw msg code.
Proof.
  induction l as [| a l IH]; cbn [omapM]; [discriminate |].
  destruct (f a) as [b | m c | w] eqn:Ea; cbn [obind].
  - destruct (omapM f l) as [bs | m c | w]; cbn [obind]; try discriminate.
    intros [= -> ->]. destruct (IH eq_refl) as (x & Hx & Hfx).
    exists x. split; [now right | exact Hfx].
  - intros [= -> ->]. exists a. split; [now left | exact Ea].
  - discriminate.
Qed.

Lemma string_append_assoc (a b c : string) : (a ++ b) ++ c = a ++ b ++ c.
Proof. induction a as [| ch a IH]; cbn [String.append]; [| rewrite IH]; reflexivity. Qed.

Lemma Throw_inj {A} (m m' : string) (c c' : ErrorCode) :
  @Throw A m c = Throw m' c' -> m = m' /\ c = c'.
Proof. intros H. now inversion H. Qed.

(** Solve a goal on one exception of the type checks: its code, and the
    name of the function inside its message. *)
Ltac named_exception :=
  match goal with
  | H : Throw _ _ = Throw _ _ |- _ =>
      apply Throw_inj in H as [<- <-];
      split; [auto | do 2 eexists; reflexivity]
  end.

(** X7.  Every exception that [getLambdaArgumentTypes] throws has the code
    [NUMBER_OF_ARGUMENTS_DOESNT_MATCH] or [ILLEGAL_TYPE_OF_ARGUMENT], and
    its message holds the name of the function. *)
Theorem getLambdaArgumentTypes_exceptions_name_the_function (impl : Impl)
    (name_ : string) (types : list DataType) (msg : string) (code : ErrorCode) :
  getLambdaArgumentTypes impl name_ types = Throw msg code ->
  (code = NUMBER_OF_ARGUMENTS_DOESNT_MATCH \/ code = ILLEGAL_TYPE_OF_ARGUMENT)
  /\ exists before after, msg = before ++ name_ ++ after.
Proof.
  intros H. unfold getLambdaArgumentTypes, getName in H. cbv zeta in H.
  destruct types as [| a0 [| a1 rest]]; [named_exception | named_exception |].
  match type of H with
  | obind ?loop _ = _ => destruct loop as [array_types | m c | w] eqn:Eloop
  end; cbn [obind] in H.
  - destruct (asDataTypeFunction a0) as [[ats ret] |]; [| named_exception].
    destruct (List.length ats =? _); [discriminate | named_exception].
  - apply Throw_inj in H as [-> ->].
    apply omapM_Throw_inv in Eloop as ([i t] & _ & Hx).
    destruct (asDataTypeArray t); [discriminate |].
    apply Throw_inj in Hx as [<- <-]. split; [auto |].
    exists ("Argument " ++ toString (i + 2) ++ " of function "),
           (" must be array. Found " ++ IDataType_getName t ++ " instead.").
    now rewrite !string_append_assoc.
  - discriminate.
Qed.

Lemma getLambdaArgumentTypes_exceptions_name_the_function_witness :
  (ILLEGAL_TYPE_OF_ARGUMENT = NUMBER_OF_ARGUMENTS_DOESNT_MATCH
   \/ ILLEGAL_TYPE_OF_ARGUMENT = ILLEGAL_TYPE_OF_ARGUMENT)
  /\ exists before after,
       "Argument 2 of function arrayMap must be array. Found Int64 instead."
       = before ++ "arrayMap" ++ after.
Proof.
  exact (@getLambdaArgumentTypes_exceptions_name_the_function
           Scenarios.ArrayMapImpl "arrayMap"
           [DataTypeFunction [DataTypeInt64] None; DataTypeInt64]
           "Argument 2 of function arrayMap must be array. Found Int64 instead."
           ILLEGAL_TYPE_OF_ARGUMENT eq_refl).
Defined.

(** X8.  Line 129 of the source relies on [getLambdaArgumentTypes]: once it
    has accepted the types of the arguments, [getReturnTypeImpl] does not
    reach the null [first_array_type] of line 144 (nor an empty argument
    list).  The only undefined behaviour left to it is a function type
    without return type under a strategy that needs a boolean. *)
Theorem checked_types_have_first_array (impl : Impl) (name_ : string)
    (arguments : ColumnsWithTypeAndName) (types' : list DataType) (w : string) :
  getLambdaArgumentTypes impl name_ (map type arguments) = Ok types' ->
  getReturnTypeImpl impl name_ arguments = Undefined w ->
  w = "return_type is null"
  /\ needBoolean impl = true
  /\ exists a0 rest argument_types,
       arguments = a0 :: rest /\ type a0 = DataTypeFunction argument_types None.
Proof.
  intros H Hu.
  destruct arguments as [| x0 [| x1 xs]]; cbn [map] in H;
    unfold getLambdaArgumentTypes in H; try discriminate.
  assert (Harr : isFolding impl = false -> asDataTypeArray (type x1) <> None).
  { intros Hfold Hnone. rewrite Hfold in H.
    cbn [List.length] in H. rewrite Nat.sub_succ, !Nat.sub_0_r in H.
    cbn [seq firstn combine omapM] in H. rewrite Hnone in H. discriminate H. }
  unfold getReturnTypeImpl in Hu. cbv zeta in Hu.
  destruct (List.length (x0 :: x1 :: xs) <? _); [discriminate |].
  destruct ((2 <? _) && _); [discriminate |].
  destruct (asDataTypeFunction (type x0)) as [[ats ret] |] eqn:Ef; [| discriminate].
  assert (Hfolded : forall r,
             (if isFolding impl
              then Ok (getReturnType impl r (type (last (x0 :: x1 :: xs) x0)))
              else match asDataTypeArray (type x1) with
                   | Some nested => Ok (getReturnType impl r nested)
                   | None => Undefined "first_array_type is null"
                   end) <> Undefined w).
  { intros r. destruct (isFolding impl); [discriminate |].
    specialize (Harr eq_refl).
    destruct (asDataTypeArray (type x1)); [discriminate | contradiction]. }
  destruct (needBoolean impl); [| now apply Hfolded in Hu].
  destruct ret as [r |]; cbn [removeLowCardinality] in Hu.
  - exfalso.
    destruct r; cbn [isUInt8 negb] in Hu;
      try discriminate; try (now apply Hfolded in Hu).
    destruct (negb (isUInt8 r)); [discriminate | now apply Hfolded in Hu].
  - inversion Hu. split; [reflexivity |]. split; [reflexivity |].
    exists x0, (x1 :: xs), ats. split; [reflexivity |].
    destruct (type x0); cbn [asDataTypeFunction] in Ef; try discriminate.
    now inversion Ef.
Qed.

Lemma checked_types_have_first_array_witness :
  "return_type is null" = "return_type is null"
  /\ needBoolean (mkImpl true true false false (fun _ _ => DataTypeUInt8)
                         (fun _ mapped => Ok mapped)) = true
  /\ exists a0 rest argument_types,
       [mkArg None (DataTypeFunction [DataTypeInt64] None) "lambda";
        mkArg None (DataTypeArray DataTypeInt64) "array"]
       = a0 :: rest
       /\ type a0 = DataTypeFunction argument_types None.
Proof.
  exact (@checked_types_have_first_array
           (mkImpl true true false false (fun _ _ => DataTypeUInt8)
                   (fun _ mapped => Ok mapped))
           "arrayExists"
           [mkArg None (DataTypeFunction [DataTypeInt64] None) "lambda";
            mkArg None (DataTypeArray DataTypeInt64) "array"]
           [DataTypeFunction [DataTypeInt64] None; DataTypeArray DataTypeInt64]
           "return_type is null" eq_refl eq_refl).
Defined.

(** * Further properties of [executeImpl] *)

(** X9.  With two arguments or more, a first argument whose column is null
    or no closure column is refused with [ILLEGAL_TYPE_OF_ARGUMENT] before
    any other argument is looked at: whatever the other arguments are, the
    call writes the header only and throws. *)
Theorem executeImpl_first_argument_no_function (impl : Impl) (name_ : string)
    (a0 a1 : ColumnWithTypeAndName) (rest : ColumnsWithTypeAndName) :
  (forall c, column a0 = Some c -> isColumnFunction c = false) ->
  executeImpl impl name_ (a0 :: a1 :: rest)
  = (header impl (a0 :: a1 :: rest),
     Throw ("First argument for function " ++ name_ ++ " must be a function.")
           ILLEGAL_TYPE_OF_ARGUMENT).
Proof.
  intros Hno. unfold executeImpl, header. rewrite !mbind_cerr.
  unfold executeMapped, getName.
  destruct (column a0) as [c |]; [| reflexivity].
  now rewrite (Hno c eq_refl).
Qed.

Lemma executeImpl_first_argument_no_function_witness :
  executeImpl Scenarios.ArrayMapImpl "arrayMap"
    [Scenarios.seedArgument [1]%Z; Scenarios.seedArgument [2]%Z]
  = (header Scenarios.ArrayMapImpl
       [Scenarios.seedArgument [1]%Z; Scenarios.seedArgument [2]%Z],
     Throw "First argument for function arrayMap must be a function."
           ILLEGAL_TYPE_OF_ARGUMENT).
Proof.
  refine (@executeImpl_first_argument_no_function Scenarios.ArrayMapImpl "arrayMap"
            (Scenarios.seedArgument [1]%Z) (Scenarios.seedArgument [2]%Z) [] _).
  intros c [= <-]. reflexivity.
Defined.

(** The loop over the arrays stops at an argument that [collectArray]
    refuses whatever the state. *)
Lemma collectArrays_stop name_ canonical bad tail msg code :
  (forall st i, collectArray name_ st (i, bad) = Throw msg code) ->
  forall agreeing i n st,
    offsets_column st = Some canonical ->
    Forall (fun a => exists d o, normalizesTo a d o /\ getData o = getData canonical)
           agreeing ->
    List.length agreeing < n ->
    ofoldM (collectArray name_) st (combine (seq i n) (agreeing ++ bad :: tail))
    = Throw msg code.
Proof.
  intros Hbad.
  induction agreeing as [| a agreeing IH]; intros i n st Hst Hall Hn;
    destruct n as [| n]; cbn [List.length] in Hn; try lia;
    cbn [seq app combine ofoldM].
  - now rewrite Hbad.
  - inversion Hall as [| a' l' (d & o & Ha & Hd) Hall']; subst.
    destruct (collectArray_agrees name_ st i Hst Ha (or_intror Hd)) as (st' & -> & Hst').
    cbn [obind]. apply IH; [assumption | assumption | lia].
Qed.

Lemma executeImpl_stops_at_array impl name_ lambda column_function good bad tail msg code :
  column lambda = Some column_function ->
  isColumnFunction column_function = true ->
  zipped good ->
  (isFolding impl = true -> tail <> []) ->
  (forall st i, collectArray name_ st (i, bad) = Throw msg code) ->
  executeImpl impl name_ (lambda :: good ++ bad :: tail)
  = (header impl (lambda :: good ++ bad :: tail), Throw msg code).
Proof.
  intros Hl Hcf Hgood Htail Hbad.
  unfold executeImpl, header. rewrite !mbind_cerr.
  destruct (good ++ bad :: tail)%list as [| x xs] eqn:E; [destruct good; discriminate |].
  rewrite <- E. clear E x xs.
  assert (Hm : executeMapped impl name_ (lambda :: good ++ bad :: tail) lambda
               = ([], Throw msg code)).
  { unfold executeMapped. rewrite Hl, Hcf. cbn [negb].
    assert (Hc : collectArrays impl name_ (lambda :: good ++ bad :: tail) = Throw msg code).
    { unfold collectArrays. cbn [skipn List.length].
      rewrite length_app. cbn [List.length].
      assert (Hk : exists k,
                 S (List.length good + S (List.length tail))
                 - (if isFolding impl then 1 else 0) - 1 = k
                 /\ List.length good < k).
      { destruct (isFolding impl) eqn:Ef.
        - specialize (Htail eq_refl). destruct tail as [| t tail']; [contradiction |].
          cbn [List.length]. eexists; split; [reflexivity | lia].
        - eexists; split; [reflexivity | lia]. }
      destruct Hk as (k & -> & Hk).
      rewrite (firstn_past_app _ _ _ Hk).
      destruct good as [| first agreeing].
      - destruct k as [| k]; [lia |]. cbn [app seq combine ofoldM]. now rewrite Hbad.
      - destruct Hgood as (d1 & o1 & Hfirst & Hall).
        destruct k as [| k]; [cbn [List.length] in Hk; lia |].
        cbn [app seq combine ofoldM].
        destruct (collectArray_first name_ Hfirst) as (st1 & -> & Hst1 & _).
        cbn [obind]. cbn [List.length] in Hk.
        now rewrite (@collectArrays_stop name_ o1 bad _ msg code Hbad agreeing 2 k st1
                       Hst1 Hall (proj2 (Nat.succ_lt_mono _ _) Hk)). }
    now rewrite Hc. }
  rewrite Hm. reflexivity.
Qed.

(** X10.  The first array argument that cannot be taken, after arrays that
    were taken, ends the call with the header alone on the standard error
    stream.  A column that is neither an array nor a constant array is
    refused with [ILLEGAL_COLUMN] and the name of the column, whatever its
    declared type; an array column declared with a type that is no array
    type is refused with [ILLEGAL_TYPE_OF_ARGUMENT] and the name of the
    type.  The column is checked before the type. *)
Theorem executeImpl_refuses_array_argument (impl : Impl) (name_ : string)
    (lambda bad : ColumnWithTypeAndName) (good tail : ColumnsWithTypeAndName)
    (column_function c : Column) :
  column lambda = Some column_function ->
  isColumnFunction column_function = true ->
  zipped good ->
  (isFolding impl = true -> tail <> []) ->
  column bad = Some c ->
  (checkAndGetColumnArray c = None ->
   checkAndGetColumnConstArray c = None ->
   executeImpl impl name_ (lambda :: good ++ bad :: tail)
   = (header impl (lambda :: good ++ bad :: tail),
      Throw ("X2 Expected array column, found " ++ IColumn_getName c) ILLEGAL_COLUMN))
  /\ (checkAndGetColumnArray c <> None ->
      asDataTypeArray (type bad) = None ->
      executeImpl impl name_ (lambda :: good ++ bad :: tail)
      = (header impl (lambda :: good ++ bad :: tail),
         Throw ("X3 Expected array type, found " ++ IDataType_getName (type bad))
               ILLEGAL_TYPE_OF_ARGUMENT)).
Proof.
  intros Hl Hcf Hgood Htail Hc. split.
  - intros Harr Hconst.
    apply (@executeImpl_stops_at_array impl name_ lambda column_function good bad tail
             _ _ Hl Hcf Hgood Htail).
    intros st i. unfold collectArray, normalizeArray. now rewrite Hc, Harr, Hconst.
  - intros Harr Htype.
    apply (@executeImpl_stops_at_array impl name_ lambda column_function good bad tail
             _ _ Hl Hcf Hgood Htail).
    intros st i. unfold collectArray, normalizeArray. rewrite Hc.
    destruct (checkAndGetColumnArray c); [| contradiction].
    cbn [obind]. now rewrite Htype.
Qed.

Lemma executeImpl_refuses_array_argument_witness :
  executeImpl Scenarios.ArrayMapImpl "arrayMap"
    [Scenarios.lambdaArgument Scenarios.plus 1 [DataTypeInt64; DataTypeInt64];
     Scenarios.arrayArgument 1 [1]%Z [1];
     mkArg (Some (ColumnVector [1]%Z)) DataTypeInt64 "numbers"]
  = (header Scenarios.ArrayMapImpl
       [Scenarios.lambdaArgument Scenarios.plus 1 [DataTypeInt64; DataTypeInt64];
        Scenarios.arrayArgument 1 [1]%Z [1];
        mkArg (Some (ColumnVector [1]%Z)) DataTypeInt64 "numbers"],
     Throw "X2 Expected array column, found Int64" ILLEGAL_COLUMN).
Proof.
  refine (proj1 (@executeImpl_refuses_array_argument
                   Scenarios.ArrayMapImpl "arrayMap"
                   (Scenarios.lambdaArgument Scenarios.plus 1 [DataTypeInt64; DataTypeInt64])
                   (mkArg (Some (ColumnVector [1]%Z)) DataTypeInt64 "numbers")
                   [Scenarios.arrayArgument 1 [1]%Z [1]] []
                   (ColumnFunction 1 Scenarios.plus []) (ColumnVector [1]%Z)
                   eq_refl eq_refl _ _ eq_refl) eq_refl eq_refl).
  - exists (ColumnVector [1]%Z), (mkOffsets (Some 1) [1]).
    split; [split; [reflexivity | discriminate] | constructor].
  - intros H; discriminate H.
Defined.

(** X11.  The overload with one argument takes an array column or a
    constant array and nothing else: any other column is refused with
    [ILLEGAL_COLUMN] and the name of the column, the strategy is not called
    and the header is all that is written. *)
Theorem executeImpl_single_refuses_column (impl : Impl) (name_ : string)
    (a0 : ColumnWithTypeAndName) (c : Column) :
  column a0 = Some c ->
  checkAndGetColumnArray c = None ->
  checkAndGetColumnConstArray c = None ->
  executeImpl impl name_ [a0]
  = (header impl [a0],
     Throw ("X1 Expected array column, found " ++ IColumn_getName c) ILLEGAL_COLUMN).
Proof.
  intros Hc Harr Hconst. unfold executeImpl, header. rewrite !mbind_cerr.
  unfold executeSingle. now rewrite Hc, Harr, Hconst.
Qed.

Lemma executeImpl_single_refuses_column_witness :
  executeImpl Scenarios.ArrayCountImpl "arrayCount"
    [mkArg (Some (ColumnLowCardinality [1]%Z [0; 0])) (DataTypeArray DataTypeUInt8) "array"]
  = (header Scenarios.ArrayCountImpl
       [mkArg (Some (ColumnLowCardinality [1]%Z [0; 0])) (DataTypeArray DataTypeUInt8) "array"],
     Throw "X1 Expected array column, found ColumnLowCardinality" ILLEGAL_COLUMN).
Proof.
  exact (@executeImpl_single_refuses_column Scenarios.ArrayCountImpl "arrayCount"
           (mkArg (Some (ColumnLowCardinality [1]%Z [0; 0])) (DataTypeArray DataTypeUInt8)
                  "array")
           (ColumnLowCardinality [1]%Z [0; 0]) eq_refl eq_refl eq_refl).
Defined.

(** X12.  A fold called with a lambda and an accumulator and no array goes
    through both type checks ([getLambdaArgumentTypes] asks for a function
    of one argument, the accumulator; [getReturnTypeImpl] returns the type
    the strategy computes from the accumulator type), and [executeImpl] then
    dereferences [column_first_array], which the empty loop of lines 195-238
    has left null: after the header and the number of bound columns, the
    call leaves defined behaviour. *)
Theorem fold_without_array_dereferences_null (impl : Impl) (name_ : string)
    (lambda acc : ColumnWithTypeAndName) (column_function : Column)
    (argument_type : DataType) (ret : option DataType) :
  isFolding impl = true ->
  needBoolean impl = false ->
  type lambda = DataTypeFunction [argument_type] ret ->
  column lambda = Some column_function ->
  isColumnFunction column_function = true ->
  getLambdaArgumentTypes impl name_ [type lambda; type acc]
  = Ok [DataTypeFunction [type acc] None; type acc]
  /\ getReturnTypeImpl impl name_ [lambda; acc]
     = Ok (getReturnType impl (removeLowCardinality ret) (type acc))
  /\ executeImpl impl name_ [lambda; acc]
     = ((header impl [lambda; acc] ++ [[TStr "  arrays.size() = "; TNum 1]])%list,
        Undefined "column_first_array is null").
Proof.
  intros Hfold Hbool Ht Hc Hcf. split; [| split].
  - unfold getLambdaArgumentTypes. rewrite Hfold, Ht. reflexivity.
  - unfold getReturnTypeImpl. cbn [List.length].
    replace (2 <? (if needExpression impl then 2 else 1)) with false
      by (destruct (needExpression impl); reflexivity).
    cbn [Nat.ltb Nat.leb andb]. rewrite Ht, Hbool, Hfold. reflexivity.
  - unfold executeImpl, header. rewrite !mbind_cerr.
    unfold executeMapped. rewrite Hc, Hcf. cbn [negb].
    unfold collectArrays. rewrite Hfold. reflexivity.
Qed.

Lemma fold_without_array_dereferences_null_witness :
  outcome (executeImpl Scenarios.ArrayFoldImpl "arrayFold"
             [Scenarios.lambdaArgument Scenarios.double 2 [DataTypeInt64];
              Scenarios.seedArgument [10; 20]%Z])
  = Undefined "column_first_array is null".
Proof.
  exact (f_equal snd
           (proj2 (proj2
              (@fold_without_array_dereferences_null Scenarios.ArrayFoldImpl "arrayFold"
                 (Scenarios.lambdaArgument Scenarios.double 2 [DataTypeInt64])
                 (Scenarios.seedArgument [10; 20]%Z)
                 (ColumnFunction 2 Scenarios.double [])
                 DataTypeInt64 (Some DataTypeInt64)
                 eq_refl eq_refl eq_refl eq_refl eq_refl)))).
Defined.

Lemma last_map {A B} (f : A -> B) (l : list A) : forall d,
  last (map f l) (f d) = f (last l d).
Proof.
  induction l as [| x l IH]; intros d; [reflexivity |].
  destruct l as [| y l']; [reflexivity |].
  exact (IH d).
Qed.

(** The types bound by the loop over the arrays are the types the loop of
    [getLambdaArgumentTypes] computes for the same arguments. *)
Lemma collected_types name_ (l : ColumnsWithTypeAndName) : forall i j st st' tys,
  ofoldM (collectArray name_) st (combine (seq i (List.length l)) l) = Ok st' ->
  omapM (fun '(i, t) =>
           match asDataTypeArray t with
           | None =>
               Throw ("Argument " ++ toString (i + 2) ++ " of function " ++ name_
                      ++ " must be array. Found " ++ IDataType_getName t ++ " instead.")
                     ILLEGAL_TYPE_OF_ARGUMENT
           | Some n => Ok (recursiveRemoveLowCardinalityType n)
           end)
        (combine (seq j (List.length l)) (map type l))
  = Ok tys ->
  map type (arrays st') = (map type (arrays st) ++ tys)%list.
Proof.
  induction l as [| a l IH]; intros i j st st' tys Hfold Htys;
    cbn [List.length seq map combine ofoldM omapM] in *.
  - inversion Hfold. inversion Htys. now rewrite app_nil_r.
  - destruct (collectArray name_ st (i, a)) as [st1 | |] eqn:E1;
      cbn [obind] in Hfold; try discriminate.
    destruct (asDataTypeArray (type a)) as [nested |] eqn:Et;
      cbn [obind] in Htys; try discriminate.
    match type of Htys with
    | obind ?loop _ = _ => destruct loop as [tys' | |] eqn:Eloop
    end; cbn [obind] in Htys; try discriminate.
    inversion Htys; subst tys.
    rewrite (IH (S i) (S j) st1 st' tys' Hfold Eloop).
    unfold collectArray in E1.
    destruct (normalizeArray (column a)) as [p | |]; cbn [obind] in E1; try discriminate.
    rewrite Et in E1.
    destruct (checkAndGetColumnArray p) as [[d o] |]; try discriminate.
    match type of E1 with
    | obind ?chk _ = _ => destruct chk as [canonical | |]
    end; cbn [obind] in E1; try discriminate.
    inversion E1. cbn [arrays]. rewrite map_app, <- app_assoc. reflexivity.
Qed.

(** X13.  The closure is bound to columns of the types it was declared
    with: when [getLambdaArgumentTypes] accepts the types of the arguments
    and the loop of lines 190-240 takes the arguments, the types of the
    columns in [arrays], in order, are the argument types of the function
    type that [getLambdaArgumentTypes] has put in the first place (the
    element types of the arrays freed of dictionary encoding, then the
    accumulator type in a fold). *)
Theorem bound_columns_have_lambda_types (impl : Impl) (name_ : string)
    (arguments : ColumnsWithTypeAndName) (types' : list DataType) (st : Arrays) :
  getLambdaArgumentTypes impl name_ (map type arguments) = Ok types' ->
  collectArrays impl name_ arguments = Ok st ->
  types' = DataTypeFunction (map type (arrays st)) None :: map type (tl arguments).
Proof.
  intros Ht Hc.
  destruct arguments as [| a0 [| a1 rest]]; cbn [map] in Ht;
    unfold getLambdaArgumentTypes in Ht; try discriminate.
  cbv zeta in Ht. cbn [List.length] in Ht. rewrite Nat.sub_succ, !Nat.sub_0_r in Ht.
  unfold collectArrays in Hc. cbv zeta in Hc. cbn [List.length skipn] in Hc.
  rewrite length_map in Ht.
  set (l := firstn (S (List.length rest) - (if isFolding impl then 1 else 0)) (a1 :: rest)).
  assert (Hl : List.length l = S (List.length rest) - (if isFolding impl then 1 else 0)).
  { subst l. rewrite length_firstn. cbn [List.length]. lia. }
  replace (S (S (List.length rest)) - (if isFolding impl then 1 else 0) - 1)
    with (List.length l) in Hc by (rewrite Hl; destruct (isFolding impl); lia).
  rewrite <- Hl in Ht.
  change (type a1 :: map type rest) with (map type (a1 :: rest)) in Ht.
  rewrite firstn_map in Ht.
  replace (firstn (List.length l) (a1 :: rest)) with l in Ht, Hc
    by (rewrite Hl; reflexivity).
  destruct (ofoldM (collectArray name_) (mkArrays None None [])
                   (combine (seq 1 (List.length l)) l)) as [st1 | |] eqn:Efold;
    cbn [obind] in Hc; try discriminate.
  match type of Ht with
  | obind ?loop _ = _ => destruct loop as [tys | |] eqn:Eloop
  end; cbn [obind] in Ht; try discriminate.
  pose proof (collected_types name_ l 1 0 _ Efold Eloop) as Htypes.
  cbn [arrays map app] in Htypes.
  destruct (asDataTypeFunction (type a0)) as [[ats ret] |]; try discriminate.
  destruct (List.length ats =? _); try discriminate.
  inversion Ht as [Ht']. clear Ht. cbn [tl map]. f_equal. f_equal.
  destruct (isFolding impl).
  - inversion Hc as [Hst]. cbn [arrays]. rewrite map_app, Htypes. cbn [map].
    do 2 f_equal.
    exact (last_map type (a0 :: a1 :: rest) a0).
  - inversion Hc; subst st1. now rewrite Htypes.
Qed.

Lemma bound_columns_have_lambda_types_witness :
  [DataTypeFunction [DataTypeInt64; DataTypeInt64] None;
   DataTypeArray DataTypeInt64; DataTypeInt64]
  = DataTypeFunction
      (map type [mkArg (Some (ColumnVector [5]%Z)) DataTypeInt64 "array";
                 Scenarios.seedArgument [10]%Z]) None
    :: map type (tl [Scenarios.lambdaArgument Scenarios.plus 1 [DataTypeInt64; DataTypeInt64];
                     Scenarios.arrayArgument 1 [5]%Z [1];
                     Scenarios.seedArgument [10]%Z]).
Proof.
  exact (@bound_columns_have_lambda_types Scenarios.ArrayFoldImpl "arrayFold"
           [Scenarios.lambdaArgument Scenarios.plus 1 [DataTypeInt64; DataTypeInt64];
            Scenarios.arrayArgument 1 [5]%Z [1];
            Scenarios.seedArgument [10]%Z]
           [DataTypeFunction [DataTypeInt64; DataTypeInt64] None;
            DataTypeArray DataTypeInt64; DataTypeInt64]
           (mkArrays (Some (mkOffsets (Some 1) [1]))
                     (Some (ColumnVector [5]%Z, mkOffsets (Some 1) [1]))
                     [mkArg (Some (ColumnVector [5]%Z)) DataTypeInt64 "array";
                      Scenarios.seedArgument [10]%Z])
           eq_refl eq_refl).
Defined.

(** * Further properties of the fold loop and of the trace *)

(** X15.  In a call with a lambda under a strategy that does not fold, the
    closing banner [" ^^^ FOLDING"] is on the standard error stream exactly
    when the call returns a column: every exception and every undefined
    step ends the call before line 353. *)
Theorem closing_banner_iff_returned (impl : Impl) (name_ : string)
    (a0 a1 : ColumnWithTypeAndName) (rest : ColumnsWithTypeAndName) :
  isFolding impl = false ->
  (exists r, outcome (executeImpl impl name_ (a0 :: a1 :: rest)) = Ok r)
  <-> In [TStr " ^^^ FOLDING"] (stderr (executeImpl impl name_ (a0 :: a1 :: rest))).
Proof.
  intros Hfold. unfold executeImpl. rewrite !mbind_cerr.
  cbn [outcome snd stderr fst].
  assert (Hcases :
    (exists r, snd (executeMapped impl name_ (a0 :: a1 :: rest) a0) = Ok r)
    <-> In [TStr " ^^^ FOLDING"] (fst (executeMapped impl name_ (a0 :: a1 :: rest) a0))).
  { unfold executeMapped.
    destruct (column a0) as [column_function |];
      [| cbn; split; [intros [r H]; discriminate H | intros []]].
    destruct (negb (isColumnFunction column_function));
      [cbn; split; [intros [r H]; discriminate H | intros []] |].
    destruct (collectArrays impl name_ (a0 :: a1 :: rest)) as [st | m c | w];
      [| cbn; split; [intros [r H]; discriminate H | intros []]
       | cbn; split; [intros [r H]; discriminate H | intros []]].
    rewrite mbind_lift_Ok, mbind_cerr.
    destruct (column_first_array st) as [first_array |];
      [| cbn; split; [intros [r H]; discriminate H
                     | intros [H | []]; discriminate H]].
    rewrite mbind_lift_Ok, !mbind_cerr. rewrite Hfold. cbn [andb].
    unfold broadcast.
    destruct (replicate column_function (getData (snd first_array))) as [f1 | m c | w];
      [| cbn; split; [intros [r H]; discriminate H
                     | intros [H | [H | [H | [H | []]]]]; discriminate H]
       | cbn; split; [intros [r H]; discriminate H
                     | intros [H | [H | [H | [H | []]]]]; discriminate H]].
    rewrite mbind_lift_Ok.
    destruct (appendArguments f1 (arrays st)) as [f2 | m c | w];
      [| cbn; split; [intros [r H]; discriminate H
                     | intros [H | [H | [H | [H | []]]]]; discriminate H]
       | cbn; split; [intros [r H]; discriminate H
                     | intros [H | [H | [H | [H | []]]]]; discriminate H]].
    rewrite mbind_lift_Ok.
    destruct (reduce f2) as [reduced | m c | w];
      [| cbn; split; [intros [r H]; discriminate H
                     | intros [H | [H | [H | [H | []]]]]; discriminate H]
       | cbn; split; [intros [r H]; discriminate H
                     | intros [H | [H | [H | [H | []]]]]; discriminate H]].
    rewrite mbind_lift_Ok.
    destruct (execute impl (arrayColumn first_array) _) as [r | m c | w];
      [| cbn; split; [intros [r H]; discriminate H
                     | intros [H | [H | [H | [H | []]]]]; discriminate H]
       | cbn; split; [intros [r H]; discriminate H
                     | intros [H | [H | [H | [H | []]]]]; discriminate H]].
    rewrite mbind_lift_Ok, mbind_cerr. cbn.
    split; [intros _; do 4 right; now left | intros _; eauto]. }
  rewrite Hcases. cbn [In].
  split; [intros H; now do 3 right |].
  intros [H | [H | [H | H]]]; try discriminate H. exact H.
Qed.

Lemma closing_banner_iff_returned_witness :
  In [TStr " ^^^ FOLDING"]
     (stderr (executeImpl Scenarios.ArrayMapImpl "arrayMap" Scenarios.transform)).
Proof.
  refine (proj1 (@closing_banner_iff_returned Scenarios.ArrayMapImpl "arrayMap"
                   (Scenarios.lambdaArgument Scenarios.double 1 [DataTypeInt64])
                   (Scenarios.arrayArgument 1 [1; 2; 3]%Z [3]) [] eq_refl) _).
  eexists. reflexivity.
Defined.

Lemma silentEnd_mbind {A B} (m : M A) (k : A -> M B) :
  silentEnd m -> (forall a, silentEnd (k a)) -> silentEnd (mbind m k).
Proof.
  unfold silentEnd, stderr. intros Hm Hk.
  destruct m as [t [a | msg code | w]]; cbn [mbind fst] in *; try exact Hm.
  specialize (Hk a). destruct (k a) as [t' o]. cbn [fst] in *.
  intros Hin. apply in_app_or in Hin as [Hin | Hin]; [now apply Hm | now apply Hk].
Qed.

Lemma silentEnd_lift {A} (o : Outcome A) : silentEnd (lift o).
Proof. intros []. Qed.

Lemma silentEnd_mret {A} (a : A) : silentEnd (mret a).
Proof. intros []. Qed.

Lemma silentEnd_cerr (l : Line) : l <> [TStr " ^^^ FOLDING"] -> silentEnd (cerr l).
Proof. intros Hl [H | []]. now apply Hl. Qed.

Lemma silentEnd_mfoldM {A B} (f : A -> B -> M A) (l : list B) :
  (forall a x, silentEnd (f a x)) -> forall a, silentEnd (mfoldM f a l).
Proof.
  intros Hf. induction l as [| x l IH]; intros a; cbn [mfoldM].
  - apply silentEnd_mret.
  - apply silentEnd_mbind; [apply Hf | exact IH].
Qed.

(** Take a chain of binds apart, down to its lines and lifted steps. *)
Ltac silent_chain :=
  repeat first
    [ apply silentEnd_mret
    | apply silentEnd_lift
    | apply silentEnd_cerr; discriminate
    | apply silentEnd_mbind; [| intros ?] ].

Lemma silentEnd_foldIteration impl cf fa arrs arr_next iter st :
  silentEnd (foldIteration impl cf fa arrs arr_next iter st).
Proof.
  unfold foldIteration, bindIteration, sliceArrays. silent_chain.
  apply silentEnd_mfoldM. intros acc [icolumn arr]. silent_chain.
Qed.

Lemma silentEnd_foldIterations impl cf fa arrs arr_next n : forall iter st,
  silentEnd (foldIterations impl cf fa arrs arr_next n iter st).
Proof.
  induction n as [| n IH]; intros iter st; cbn [foldIterations].
  - apply silentEnd_mret.
  - apply silentEnd_mbind; [apply silentEnd_foldIteration | intros st'; apply IH].
Qed.

Lemma silentEnd_foldRows impl cf fa arrs accumulator_column :
  silentEnd (foldRows impl cf fa arrs accumulator_column).
Proof.
  unfold foldRows. silent_chain.
  apply silentEnd_mfoldM. intros [cursor result] irow.
  unfold foldRow. silent_chain.
  apply silentEnd_foldIterations.
Qed.

(** X16.  The loop over the rows of a fold never writes the closing banner:
    a fold over a block that holds an element ends, with a column or
    without, and [" ^^^ FOLDING"] is not on the standard error stream. *)
Theorem fold_rows_write_no_closing_banner (impl : Impl) (name_ : string)
    (lambda : ColumnWithTypeAndName) (rest : ColumnsWithTypeAndName)
    (st : Arrays) (d : Column) (o : ColumnOffsets) :
  isFolding impl = true ->
  collectArrays impl name_ (lambda :: rest) = Ok st ->
  column_first_array st = Some (d, o) ->
  0 < size d ->
  ~ In [TStr " ^^^ FOLDING"] (stderr (executeImpl impl name_ (lambda :: rest))).
Proof.
  intros Hfold Hst Hfa Hd.
  change (silentEnd (executeImpl impl name_ (lambda :: rest))).
  unfold executeImpl.
  do 3 (apply silentEnd_mbind; [apply silentEnd_cerr; discriminate | intros _]).
  destruct rest as [| a1 rest'].
  - unfold executeSingle.
    destruct (column lambda) as [c |]; [| apply silentEnd_lift].
    destruct (checkAndGetColumnArray c) as [[data offs] |]; [apply silentEnd_lift |].
    destruct (checkAndGetColumnConstArray c) as [[arr s] |]; [| intros []].
    silent_chain.
    destruct (checkAndGetColumnArray _) as [[data offs] |]; apply silentEnd_lift.
  - unfold executeMapped.
    destruct (column lambda) as [column_function |]; [| intros []].
    destruct (negb (isColumnFunction column_function)); [intros [] |].
    rewrite Hst, mbind_lift_Ok.
    apply silentEnd_mbind; [apply silentEnd_cerr; discriminate | intros _].
    rewrite Hfa, mbind_lift_Ok.
    do 3 (apply silentEnd_mbind; [apply silentEnd_cerr; discriminate | intros _]).
    rewrite Hfold. apply Nat.ltb_lt in Hd. cbn [fst]. rewrite Hd. cbn [andb].
    apply silentEnd_foldRows.
Qed.

Lemma fold_rows_write_no_closing_banner_witness :
  ~ In [TStr " ^^^ FOLDING"]
       (stderr (executeImpl Scenarios.ArrayFoldImpl "arrayFold"
                  [Scenarios.lambdaArgument Scenarios.plus 1 [DataTypeInt64; DataTypeInt64];
                   Scenarios.arrayArgument 1 [5]%Z [1];
                   Scenarios.seedArgument [10]%Z])).
Proof.
  refine (@fold_rows_write_no_closing_banner Scenarios.ArrayFoldImpl "arrayFold"
            (Scenarios.lambdaArgument Scenarios.plus 1 [DataTypeInt64; DataTypeInt64])
            [Scenarios.arrayArgument 1 [5]%Z [1]; Scenarios.seedArgument [10]%Z]
            (mkArrays (Some (mkOffsets (Some 1) [1]))
                      (Some (ColumnVector [5]%Z, mkOffsets (Some 1) [1]))
                      [mkArg (Some (ColumnVector [5]%Z)) DataTypeInt64 "array";
                       Scenarios.seedArgument [10]%Z])
            (ColumnVector [5]%Z) (mkOffsets (Some 1) [1])
            eq_refl eq_refl eq_refl _).
  simpl. lia.
Defined.
